(** * A sequential model of the [locator] service registry (locator.go)

    The Go package keeps two type-erased maps, [instances] and [providers],
    keyed by [reflect.TypeOf] of the zero value of the requested type, and
    offers three registration functions and one retrieval function, all
    generic in a type parameter [T].

    The embedding is shallow:
    - a type parameter [T] becomes an explicit argument of type [GoType];
    - a Go value is represented by its boxing into [any] (dynamic type and
      data word, or the nil interface), because that is the only view the
      registry has of it;
    - user constructors ([Provider[T]]) are closures: they act on a user
      world [W] that the registry threads but never inspects; they do not
      call back into the registry;
    - the read/write mutex and [sync.Once] guard concurrent callers; in this
      sequential model the mutex has no effect and [sync.Once] is its
      [done] flag;
    - a pointer to a [lazySingleton[T]] is reachable only through the map
      entry that holds it, so the record is kept in the map entry itself
      and mutated there.
    Every run of a constructor made by the registry is recorded in [calls]. *)

From stdpp Require Import gmap strings list pretty.
From Stdlib Require Import ZArith.

Open Scope Z_scope.
Open Scope string_scope.

(** ** Go types and interface values *)

Module GoRuntime.

Inductive Kind := Concrete | Interface.

(** A static Go type: its printed name (what [%T] shows), whether it is an
    interface type, and its method set (for an interface type, the methods
    it requires). *)
Record GoType := mkType {
  ty_name : string;
  ty_kind : Kind;
  ty_methods : list string
}.

#[global] Instance Kind_eq_dec : EqDecision Kind.
Proof. solve_decision. Defined.

#[global] Instance GoType_eq_dec : EqDecision GoType.
Proof. solve_decision. Defined.

#[global] Instance Kind_countable : Countable Kind.
Proof.
  refine (inj_countable' (λ k, match k with Concrete => false | Interface => true end)
                         (λ b : bool, if b then Interface else Concrete) _).
  by intros [].
Defined.

#[global] Instance GoType_countable : Countable GoType.
Proof.
  refine (inj_countable' (λ t, (ty_name t, ty_kind t, ty_methods t))
                         (λ '(n, k, ms), mkType n k ms) _).
  by intros [].
Defined.

Definition is_interface (T : GoType) : bool :=
  match ty_kind T with Interface => true | Concrete => false end.

(** [D] implements interface [I]: every method of [I] is in [D]'s set. *)
Definition implements (D I : GoType) : bool :=
  forallb (λ m, bool_decide (m ∈ ty_methods D)) (ty_methods I).

(** An interface value ([any]): nil, or a dynamic type with a data word
    (an integer, or the address held by a pointer). *)
Inductive any :=
| Nil
| Box (dyn : GoType) (bits : Z).

#[global] Instance any_eq_dec : EqDecision any.
Proof. solve_decision. Defined.

(** [var zero T], seen through [any]: a nil interface when [T] is an
    interface type, else a boxed zero of type [T]. *)
Definition zero (T : GoType) : any :=
  if is_interface T then Nil else Box T 0.

(** [reflect.TypeOf]: the dynamic type, nil for the nil interface. *)
Definition TypeOf (i : any) : option GoType :=
  match i with
  | Nil => None
  | Box D _ => Some D
  end.

(** What the type checker guarantees of a value passed where [T] is
    expected, seen through its boxing. *)
Definition has_type (T : GoType) (v : any) : bool :=
  match v with
  | Nil => is_interface T
  | Box D _ =>
      negb (is_interface D) &&
      (if is_interface T then implements D T else bool_decide (D = T))
  end.

(** The verb [%T] of package fmt. *)
Definition fmtT (i : any) : string :=
  match i with
  | Nil => "<nil>"
  | Box D _ => ty_name D
  end.

Inductive panic := InterfaceConversion | NilFuncCall.

Inductive outcome :=
| Ok (v : any)
| Err (msg : string)
| Panic (p : panic).

(** The type assertion [i.(T)] in its one-result form: it panics when it
    does not hold. *)
Definition assertType (i : any) (T : GoType) : outcome :=
  match i with
  | Nil => Panic InterfaceConversion
  | Box D _ =>
      if is_interface T
      then (if implements D T then Ok i else Panic InterfaceConversion)
      else (if decide (D = T) then Ok i else Panic InterfaceConversion)
  end.

End GoRuntime.

Export GoRuntime.

(** ** The registry *)

Section Locator.

Context {W : Type}.

(** [Provider[T]]: a func value, possibly nil. *)
Definition Provider : Type := option (W → any * W).

(** [lazySingleton[T]] *)
Record lazySingleton := mkLazy {
  once : bool;
  instance : any;
  provider : Provider
}.

(** What the [providers] map holds behind [any]: a pointer to a
    [lazySingleton[T]] or a [Provider[T]], each tagged with its type
    argument, which is what the type switch of [Get] inspects. *)
Inductive providerAny :=
| LazyPtr (T : GoType) (ls : lazySingleton)
| Func (T : GoType) (p : Provider).

Record ServiceLocator := mkLocator {
  instances : gmap (option GoType) any;
  providers : gmap (option GoType) providerAny
}.

(** The registry together with the user world and the record of the
    constructor runs the registry made (most recent first). *)
Record Machine := mkMachine {
  sl : ServiceLocator;
  world : W;
  calls : list GoType
}.

Definition New : ServiceLocator :=
  {| instances := ∅; providers := ∅ |}.

Definition boot (w : W) : Machine :=
  {| sl := New; world := w; calls := [] |}.

(** [getTypeKey[T]]: [var zero T; return reflect.TypeOf(zero)]. The key
    is nil ([None]) when [reflect.TypeOf] returns nil. *)
Definition getTypeKey (T : GoType) : option GoType :=
  TypeOf (zero T).

(** [fmt.Errorf("no provider registered for type %T", i)]; an error made
    by [fmt.Errorf] is observed through its message. *)
Definition Errorf (i : any) : string :=
  "no provider registered for type " ++ fmtT i.

Definition RegisterSingleton (T : GoType) (inst : any) (m : Machine) : Machine :=
  {| sl := {| instances := <[getTypeKey T := inst]> (instances (sl m));
              providers := providers (sl m) |};
     world := world m; calls := calls m |}.

(** The record starts as [&lazySingleton[T]{provider: provider}]: gate
    not fired, [instance] the zero value of [T]. *)
Definition RegisterLazySingleton (T : GoType) (p : Provider) (m : Machine) : Machine :=
  {| sl := {| instances := instances (sl m);
              providers := <[getTypeKey T :=
                               LazyPtr T {| once := false; instance := zero T; provider := p |}]>
                             (providers (sl m)) |};
     world := world m; calls := calls m |}.

Definition RegisterFactory (T : GoType) (p : Provider) (m : Machine) : Machine :=
  {| sl := {| instances := instances (sl m);
              providers := <[getTypeKey T := Func T p]> (providers (sl m)) |};
     world := world m; calls := calls m |}.

(** The method [getInstance] of [lazySingleton[T]], called on the record
    found in [providers]: the error when the constructor is nil, else
    [once.Do] of the materialization, then [ls.instance]. *)
Definition getInstance (T : GoType) (ls : lazySingleton) (m : Machine) : outcome * Machine :=
  match provider ls with
  | None => (Err (Errorf (instance ls)), m)
  | Some f =>
      if once ls then (Ok (instance ls), m)
      else
        let r := f (world m) in
        let ls' := {| once := true; instance := r.1; provider := Some f |} in
        (Ok r.1,
         {| sl := {| instances := <[getTypeKey T := r.1]> (instances (sl m));
                     providers := <[getTypeKey T := LazyPtr T ls']> (providers (sl m)) |};
            world := r.2; calls := T :: calls m |})
  end.

(** The tail of [Get]: [var zero T; return zero, fmt.Errorf(...)]. *)
Definition noProvider (T : GoType) (m : Machine) : outcome * Machine :=
  (Err (Errorf (zero T)), m).

(** [Get[T]]: the instance path with its one-result assertion
    [instance.(T)]; else the provider path, whose type switch has the two
    cases [*lazySingleton[T]] and [Provider[T]] (an entry registered with
    another type argument matches neither and falls through); else the
    error. *)
Definition Get (T : GoType) (m : Machine) : outcome * Machine :=
  let typeKey := getTypeKey T in
  match instances (sl m) !! typeKey with
  | Some inst => (assertType inst T, m)
  | None =>
      match providers (sl m) !! typeKey with
      | Some (LazyPtr T' p) =>
          if decide (T' = T) then getInstance T p m else noProvider T m
      | Some (Func T' p) =>
          if decide (T' = T) then
            match p with
            | Some f =>
                let r := f (world m) in
                (Ok r.1, {| sl := sl m; world := r.2; calls := T :: calls m |})
            | None => (Panic NilFuncCall, m)
            end
          else noProvider T m
      | None => noProvider T m
      end
  end.

(** [n] retrievals of [T] in a row: the outcomes in order and the final
    machine. *)
Fixpoint GetN (T : GoType) (n : nat) (m : Machine) : list outcome * Machine :=
  match n with
  | O => ([], m)
  | S n' =>
      let r := Get T m in
      let rs := GetN T n' r.2 in
      (r.1 :: rs.1, rs.2)
  end.

(** ** Programs over the registry *)

(** One call of the public API. *)
Inductive op :=
| OpRegisterSingleton (T : GoType) (inst : any)
| OpRegisterLazySingleton (T : GoType) (p : Provider)
| OpRegisterFactory (T : GoType) (p : Provider)
| OpGet (T : GoType).

Definition exec (o : op) (m : Machine) : Machine :=
  match o with
  | OpRegisterSingleton T inst => RegisterSingleton T inst m
  | OpRegisterLazySingleton T p => RegisterLazySingleton T p m
  | OpRegisterFactory T p => RegisterFactory T p m
  | OpGet T => (Get T m).2
  end.

Definition run (os : list op) (m : Machine) : Machine :=
  foldl (λ acc o, exec o acc) m os.

(** A constructor passed as [Provider[T]] returns values of type [T]. *)
Definition typed_provider (T : GoType) (p : Provider) : Prop :=
  ∀ f, p = Some f → ∀ w, has_type T (f w).1 = true.

(** The calls the Go type checker accepts. *)
Definition typed_op (o : op) : Prop :=
  match o with
  | OpRegisterSingleton T inst => has_type T inst = true
  | OpRegisterLazySingleton T p => typed_provider T p
  | OpRegisterFactory T p => typed_provider T p
  | OpGet _ => True
  end.

(** The invariant behind the unchecked assertion of [Get]: under the key of
    a non-interface type only values of that type are stored, and every
    lazy record carries a constructor of its own type. *)
Record typed_registry (m : Machine) : Prop := {
  typed_instances :
    ∀ T v, is_interface T = false →
           instances (sl m) !! Some T = Some v → has_type T v = true;
  typed_lazies :
    ∀ k T ls, providers (sl m) !! k = Some (LazyPtr T ls) →
              typed_provider T (provider ls)
}.

(** The type argument of a call. *)
Definition op_type (o : op) : GoType :=
  match o with
  | OpRegisterSingleton T _ => T
  | OpRegisterLazySingleton T _ => T
  | OpRegisterFactory T _ => T
  | OpGet T => T
  end.

(** The one call that may replace a registered singleton of [T]. *)
Definition registers_singleton_for (T : GoType) (o : op) : Prop :=
  match o with
  | OpRegisterSingleton U _ => U = T
  | _ => False
  end.

(** The calls that register, as opposed to [Get]. *)
Definition is_registration (o : op) : Prop :=
  match o with
  | OpGet _ => False
  | _ => True
  end.

(** Whether a call writes to [instances] when it is made (else, to
    [providers], if it registers). *)
Definition writes_instances (o : op) : bool :=
  match o with
  | OpRegisterSingleton _ _ => true
  | _ => false
  end.

(** The types a program retrieves, in program order. *)
Definition requested (os : list op) : list GoType :=
  omap (λ o, match o with OpGet T => Some T | _ => None end) os.

(** What the retrievals of a program return, in program order, each with
    the type it asked for. *)
Fixpoint outcomes (os : list op) (m : Machine) : list (GoType * outcome) :=
  match os with
  | [] => []
  | o :: os' =>
      match o with
      | OpGet T => (T, (Get T m).1) :: outcomes os' (exec o m)
      | _ => outcomes os' (exec o m)
      end
  end.

(** How many constructor runs for [T] the registry has made. *)
Definition runs_of (T : GoType) (m : Machine) : nat :=
  length (filter (λ U, U = T) (calls m)).

(** The type argument a stored provider entry was registered with. *)
Definition tag (rec : providerAny) : GoType :=
  match rec with
  | LazyPtr T _ => T
  | Func T _ => T
  end.

(** What the code keeps true of [providers] and of the lazy records in it:
    an entry sits under the key of its own type argument; a record with an
    absent constructor, or with an unfired gate, still holds the zero value;
    and once a record's gate has fired, [instances] has an entry under the
    same key. *)
Record registry_inv (m : Machine) : Prop := {
  inv_key :
    ∀ k rec, providers (sl m) !! k = Some rec → getTypeKey (tag rec) = k;
  inv_absent :
    ∀ k T ls, providers (sl m) !! k = Some (LazyPtr T ls) →
              provider ls = None → once ls = false;
  inv_unfired :
    ∀ k T ls, providers (sl m) !! k = Some (LazyPtr T ls) →
              once ls = false → instance ls = zero T;
  inv_fired :
    ∀ k T ls, providers (sl m) !! k = Some (LazyPtr T ls) →
              once ls = true → is_Some (instances (sl m) !! k)
}.

(** What well-typed calls keep true of the stored values and of the
    factories: a stored value is a value of some type (its dynamic type is
    not an interface type), and a factory entry holds a constructor of the
    type it is tagged with. *)
Record typed_store (m : Machine) : Prop := {
  stored_values :
    ∀ k v, instances (sl m) !! k = Some v → ∃ T, has_type T v = true;
  typed_funcs :
    ∀ k T p, providers (sl m) !! k = Some (Func T p) → typed_provider T p
}.

End Locator.

Arguments Provider : clear implicits.
Arguments lazySingleton : clear implicits.
Arguments providerAny : clear implicits.
Arguments ServiceLocator : clear implicits.
Arguments Machine : clear implicits.
Arguments op : clear implicits.

(** ** Concrete types and values used in the examples *)

Module Samples.

Definition TestServicePtr : GoType := mkType "*locator_test.TestService" Concrete [].
Definition error_t : GoType := mkType "error" Interface ["Error"].
Definition Stringer : GoType := mkType "fmt.Stringer" Interface ["String"].
Definition errorStringPtr : GoType := mkType "*errors.errorString" Concrete ["Error"].
Definition namePtr : GoType := mkType "*main.name" Concrete ["String"].

Definition e16 : any := Box errorStringPtr 16.
Definition n32 : any := Box namePtr 32.
Definition t64 : any := Box TestServicePtr 64.

(** A constructor that allocates: it returns a pointer to the next free
    address of a bump allocator. *)
Definition alloc (T : GoType) : Z → any * Z := λ next, (Box T next, next + 1).

(** A constructor that returns the same value on every call. *)
Definition const (v : any) : Z → any * Z := λ w, (v, w).

End Samples.

Import Samples.

(** ** The example program (examples/example/main.go)

    The program's objects live in a heap of the user world: a pointer is
    an address, [0] is nil, and [&T{...}] takes the next free address.
    Go's [int] is taken 64 bits wide. *)

Module ExampleMain.

Definition MyServicePtr : GoType := mkType "*main.MyService" Concrete [].
Definition MyService1Ptr : GoType :=
  mkType "*main.MyService1" Concrete ["ChangeX"; "Sum"].

(** Arithmetic on [int] wraps around. *)
Definition wrap_int (z : Z) : Z := (z + 2 ^ 63) `mod` 2 ^ 64 - 2 ^ 63.

(** [type MyService struct { x int }] and
    [type MyService1 struct { x int; y int }]. *)
Inductive object :=
| MyService (x : Z)
| MyService1 (x y : Z).

Record Heap := mkHeap {
  cells : gmap Z object;
  next : Z
}.

Definition NewService (x : Z) (h : Heap) : Z * Heap :=
  (next h, {| cells := <[next h := MyService x]> (cells h); next := next h + 1 |}).

Definition NewService1 (x y : Z) (h : Heap) : Z * Heap :=
  (next h, {| cells := <[next h := MyService1 x y]> (cells h); next := next h + 1 |}).

(** The methods dereference their receiver: on a pointer that holds no
    [MyService1] (nil) they panic, here [None]. *)
Definition Sum (svc : Z) (h : Heap) : option Z :=
  match cells h !! svc with
  | Some (MyService1 x y) => Some (wrap_int (x + y))
  | _ => None
  end.

Definition ChangeX (svc x : Z) (h : Heap) : option Heap :=
  match cells h !! svc with
  | Some (MyService1 _ y) =>
      Some {| cells := <[svc := MyService1 x y]> (cells h); next := next h |}
  | _ => None
  end.

(** The field accesses [svc.x] and [svc.x = x] on a [*MyService]. *)
Definition load_x (svc : Z) (h : Heap) : option Z :=
  match cells h !! svc with
  | Some (MyService x) => Some x
  | _ => None
  end.

Definition store_x (svc x : Z) (h : Heap) : option Heap :=
  match cells h !! svc with
  | Some (MyService _) =>
      Some {| cells := <[svc := MyService x]> (cells h); next := next h |}
  | _ => None
  end.

(** The closures [main] registers, [func() *MyService { return
    NewService(x) }] and [func() *MyService1 { return NewService1(x, y) }]. *)
Definition serviceProvider (x : Z) : Heap → any * Heap :=
  λ h, let r := NewService x h in (Box MyServicePtr r.1, r.2).

Definition service1Provider (x y : Z) : Heap → any * Heap :=
  λ h, let r := NewService1 x y h in (Box MyService1Ptr r.1, r.2).

(** The pointer held by a retrieved value. *)
Definition ptr_of (v : any) : Z :=
  match v with
  | Box _ a => a
  | Nil => 0
  end.

(** How a run of [main] ends: it returns, or a panic ends it; either way
    with what it has written to standard output. *)
Inductive exit :=
| Returned (out : string)
| Crashed (out : string).

Record St := mkSt {
  machine : Machine Heap;
  out : string
}.

(** A step of [main]: it goes on with a result, or the program ends. *)
Definition prog (A : Type) : Type := St → (A * St) + exit.

#[global] Instance prog_ret : MRet prog := λ A a s, inl (a, s).

#[global] Instance prog_bind : MBind prog := λ A B f c s,
  match c s with
  | inl (a, s') => f a s'
  | inr e => inr e
  end.

(** The newline character. *)
Definition nl : string := String (Ascii.ascii_of_nat 10) "".

(** [v, err := slocator.Get[T](sl); if err != nil { fmt.Printf("Error
    %s\n", err); return }] *)
Definition get (T : GoType) : prog Z := λ s,
  match Get T (machine s) with
  | (Ok v, m') => inl (ptr_of v, {| machine := m'; out := out s |})
  | (Err msg, _) => inr (Returned (out s ++ "Error " ++ msg ++ nl))
  | (Panic _, _) => inr (Crashed (out s))
  end.

(** [fmt.Printf("%d\n", z)] *)
Definition print_int (z : Z) : prog unit := λ s,
  inl ((), {| machine := machine s; out := out s ++ pretty z ++ nl |}).

Definition on_machine (f : Machine Heap → Machine Heap) : prog unit := λ s,
  inl ((), {| machine := f (machine s); out := out s |}).

Definition set_world (h : Heap) (m : Machine Heap) : Machine Heap :=
  {| sl := sl m; world := h; calls := calls m |}.

(** A read, a write and an allocation in the heap; a failed dereference
    ends the program. *)
Definition heap_read (f : Heap → option Z) : prog Z := λ s,
  match f (world (machine s)) with
  | Some z => inl (z, s)
  | None => inr (Crashed (out s))
  end.

Definition heap_write (f : Heap → option Heap) : prog unit := λ s,
  match f (world (machine s)) with
  | Some h => inl ((), {| machine := set_world h (machine s); out := out s |})
  | None => inr (Crashed (out s))
  end.

Definition heap_new (f : Heap → Z * Heap) : prog Z := λ s,
  let r := f (world (machine s)) in
  inl (r.1, {| machine := set_world r.2 (machine s); out := out s |}).

Definition main_body : prog unit :=
  on_machine (RegisterLazySingleton MyServicePtr (Some (serviceProvider 10)));;
  on_machine (RegisterFactory MyService1Ptr (Some (service1Provider 10 20)));;
  svc ← get MyServicePtr;
  x ← heap_read (load_x svc);
  print_int x;;
  heap_write (store_x svc 30);;
  svcAgain ← get MyServicePtr;
  x ← heap_read (load_x svcAgain);
  print_int x;;
  svc1 ← get MyService1Ptr;
  svc2 ← get MyService1Ptr;
  heap_write (ChangeX svc1 30);;
  s1 ← heap_read (Sum svc1);
  print_int s1;;
  s2 ← heap_read (Sum svc2);
  print_int s2;;
  myServiceSingleton ← heap_new (NewService 50);
  on_machine (RegisterSingleton MyServicePtr (Box MyServicePtr myServiceSingleton));;
  svcSingleton ← get MyServicePtr;
  x ← heap_read (load_x svcSingleton);
  print_int x;;
  heap_write (store_x svcSingleton 100);;
  svcSingletonAgain ← get MyServicePtr;
  x ← heap_read (load_x svcSingletonAgain);
  print_int x.

(** [main], started on the empty heap with nothing written. *)
Definition main : exit :=
  match main_body {| machine := boot {| cells := ∅; next := 1 |}; out := "" |} with
  | inl (_, s) => Returned (out s)
  | inr e => e
  end.

End ExampleMain.

(** ** Basic facts about keys, assertions and retrieval *)

Section Basics.

Context {W : Type}.
Implicit Types (m : Machine W) (T U : GoType) (v : any).

Lemma getTypeKey_concrete T :
  is_interface T = false → getTypeKey T = Some T.
Proof. unfold getTypeKey, zero. by intros ->. Qed.

Lemma getTypeKey_interface T :
  is_interface T = true → getTypeKey T = None.
Proof. unfold getTypeKey, zero. by intros ->. Qed.

(** The same type parameter always yields the same key, and the keys of
    two types are equal only if the types are, as soon as one of them is
    not an interface type. *)
Lemma getTypeKey_inj_concrete T U :
  is_interface T = false → getTypeKey T = getTypeKey U → T = U.
Proof.
  intros HT. rewrite (getTypeKey_concrete T HT).
  unfold getTypeKey, zero. destruct (is_interface U); simpl; congruence.
Qed.

(** Any two interface types get the nil key. *)
Lemma interface_types_share_key T U :
  is_interface T = true → is_interface U = true → getTypeKey T = getTypeKey U.
Proof. intros HT HU. by rewrite !getTypeKey_interface. Qed.

Lemma assertType_typed T v :
  has_type T v = true → v ≠ Nil → assertType v T = Ok v.
Proof.
  destruct v as [|D b]; [done|]. simpl. intros H _.
  apply andb_true_iff in H as [_ H].
  destruct (is_interface T).
  - by rewrite H.
  - apply bool_decide_eq_true in H. subst. by rewrite decide_True.
Qed.

Lemma has_type_concrete_not_nil T v :
  is_interface T = false → has_type T v = true → v ≠ Nil.
Proof. intros HT Hv ->. simpl in Hv. congruence. Qed.

(** The instance path of [Get]: no constructor runs and nothing is
    written. *)
Lemma Get_instance_path T m v :
  instances (sl m) !! getTypeKey T = Some v → Get T m = (assertType v T, m).
Proof. unfold Get. by intros ->. Qed.

Lemma Get_no_entry T m :
  instances (sl m) !! getTypeKey T = None →
  providers (sl m) !! getTypeKey T = None →
  Get T m = (Err (Errorf (zero T)), m).
Proof. unfold Get. by intros -> ->. Qed.

(** A retrieval that leaves the machine as it found it repeats itself. *)
Lemma GetN_fixed T m o n :
  Get T m = (o, m) → GetN T n m = (replicate n o, m).
Proof.
  intros H. induction n as [|n IH]; [done|].
  simpl. rewrite H. simpl. by rewrite IH.
Qed.

End Basics.

(** ** The states well-typed programs reach *)

Section Programs.

Context {W : Type}.
Implicit Types (m : Machine W) (T U : GoType) (v : any).

Lemma typed_registry_boot (w : W) : typed_registry (boot w).
Proof. split; intros *; simpl; by rewrite ?lookup_empty. Qed.

Lemma key_eq_concrete T U :
  is_interface T = false → getTypeKey U = Some T → U = T.
Proof.
  intros HT HU. symmetry. apply getTypeKey_inj_concrete; [done|].
  by rewrite getTypeKey_concrete.
Qed.

Lemma typed_registry_getInstance T ls m :
  typed_registry m → typed_provider T (provider ls) →
  typed_registry (getInstance T ls m).2.
Proof.
  intros [HI HL] Hp. unfold getInstance.
  destruct (provider ls) as [f|] eqn:Hf; [|by split].
  destruct (once ls); [by split|].
  split; simpl.
  - intros U v HU. destruct (decide (getTypeKey T = Some U)) as [Hk|Hk].
    + rewrite Hk, lookup_insert_eq. intros [= <-].
      apply key_eq_concrete in Hk as ->; [|done]. by apply Hp.
    + rewrite lookup_insert_ne by done. by apply HI.
  - intros k U ls'. destruct (decide (getTypeKey T = k)) as [<-|Hk].
    + rewrite lookup_insert_eq. intros [= <- <-]. simpl.
      intros g [= <-] w. by apply Hp.
    + rewrite lookup_insert_ne by done. apply HL.
Qed.

Lemma typed_registry_Get T m :
  typed_registry m → typed_registry (Get T m).2.
Proof.
  intros Hm. unfold Get, noProvider.
  destruct (instances (sl m) !! getTypeKey T); [done|].
  destruct (providers (sl m) !! getTypeKey T) as [[T' ls|T' p]|] eqn:Hp; [| |done].
  - destruct (decide (T' = T)) as [->|]; [|done].
    apply typed_registry_getInstance; [done|].
    by eapply typed_lazies.
  - destruct (decide (T' = T)); [|done].
    destruct p; [|done]. destruct Hm as [HI HL]. by split.
Qed.

Lemma typed_registry_exec o m :
  typed_op o → typed_registry m → typed_registry (exec o m).
Proof.
  destruct o as [T inst|T p|T p|T]; simpl; intros Ho Hm.
  - destruct Hm as [HI HL]. split; simpl; [|done].
    intros U v HU. destruct (decide (getTypeKey T = Some U)) as [Hk|Hk].
    + rewrite Hk, lookup_insert_eq. intros [= <-].
      by apply key_eq_concrete in Hk as ->.
    + rewrite lookup_insert_ne by done. by apply HI.
  - destruct Hm as [HI HL]. split; simpl; [done|].
    intros k U ls. destruct (decide (getTypeKey T = k)) as [<-|Hk].
    + rewrite lookup_insert_eq. by intros [= <- <-].
    + rewrite lookup_insert_ne by done. apply HL.
  - destruct Hm as [HI HL]. split; simpl; [done|].
    intros k U ls. destruct (decide (getTypeKey T = k)) as [<-|Hk].
    + by rewrite lookup_insert_eq.
    + rewrite lookup_insert_ne by done. apply HL.
  - by apply typed_registry_Get.
Qed.

Lemma typed_registry_run os m :
  Forall typed_op os → typed_registry m → typed_registry (run os m).
Proof.
  intros Hos. revert m. induction Hos as [|o os Ho _ IH]; intros m Hm; [done|].
  simpl. apply IH. by apply typed_registry_exec.
Qed.

(** In every state a well-typed program reaches from the empty registry,
    the assertion on the instance path holds for a non-interface type. *)
Lemma instance_cast_safe_concrete os (w : W) T v :
  Forall typed_op os → is_interface T = false →
  instances (sl (run os (boot w))) !! getTypeKey T = Some v →
  Get T (run os (boot w)) = (Ok v, run os (boot w)).
Proof.
  intros Hos HT Hv. rewrite (Get_instance_path _ _ _ Hv).
  f_equal. rewrite getTypeKey_concrete in Hv by done.
  pose proof (typed_registry_run os (boot w) Hos (typed_registry_boot w)) as [HI _].
  specialize (HI T v HT Hv).
  apply assertType_typed; [done|]. by eapply has_type_concrete_not_nil.
Qed.

End Programs.

(** ** What a retrieval may write *)

Section Footprint.

Context {W : Type}.
Implicit Types (m : Machine W) (T U : GoType) (v : any).

(** [Get] writes to [instances] only when it materializes a lazy
    singleton, and then only under the key of the requested type, which
    held nothing before. *)
Lemma Get_instances U m :
  instances (sl (Get U m).2) = instances (sl m) ∨
  (instances (sl m) !! getTypeKey U = None ∧
   ∃ v, instances (sl (Get U m).2) = <[getTypeKey U := v]> (instances (sl m))).
Proof.
  unfold Get, noProvider, getInstance.
  destruct (instances (sl m) !! getTypeKey U) eqn:Hi; [by left|].
  destruct (providers (sl m) !! getTypeKey U) as [[T' ls|T' p]|]; [| |by left].
  - destruct (decide (T' = U)); [|by left].
    destruct (provider ls) as [f|]; [|by left].
    destruct (once ls); [by left|]. right. simpl. eauto.
  - destruct (decide (T' = U)); [|by left]. destruct p; by left.
Qed.

Lemma singleton_kept_exec T v o m :
  is_interface T = false → ¬ registers_singleton_for T o →
  instances (sl m) !! Some T = Some v →
  instances (sl (exec o m)) !! Some T = Some v.
Proof.
  intros HT Ho Hv. destruct o as [U inst|U p|U p|U]; simpl in *; try done.
  - rewrite lookup_insert_ne; [done|].
    intros Hk. apply Ho. by apply key_eq_concrete.
  - destruct (Get_instances U m) as [->|[Hnone [x ->]]]; [done|].
    rewrite lookup_insert_ne; [done|].
    intros Hk. rewrite Hk in Hnone. congruence.
Qed.

Lemma singleton_kept_run T v os m :
  is_interface T = false → Forall (λ o, ¬ registers_singleton_for T o) os →
  instances (sl m) !! Some T = Some v →
  instances (sl (run os m)) !! Some T = Some v.
Proof.
  intros HT Hos. revert m.
  induction Hos as [|o os Ho _ IH]; intros m Hv; [done|].
  simpl. apply IH. by apply singleton_kept_exec.
Qed.

(** For a non-interface type a registered singleton is what every later
    retrieval returns, whatever else the program does in between, short of
    registering another singleton for the same type. *)
Lemma singleton_stable_concrete T v os m :
  is_interface T = false → has_type T v = true →
  Forall (λ o, ¬ registers_singleton_for T o) os →
  Get T (run os (RegisterSingleton T v m))
  = (Ok v, run os (RegisterSingleton T v m)).
Proof.
  intros HT Hv Hos.
  assert (instances (sl (run os (RegisterSingleton T v m))) !! getTypeKey T = Some v) as Hk.
  { rewrite getTypeKey_concrete by done. apply singleton_kept_run; [done..|].
    simpl. rewrite getTypeKey_concrete by done. apply lookup_insert_eq. }
  rewrite (Get_instance_path _ _ _ Hk). f_equal.
  apply assertType_typed; [done|]. by eapply has_type_concrete_not_nil.
Qed.

(** [Get] writes to [providers] only under the key of the requested
    type. *)
Lemma Get_providers U m k :
  k ≠ getTypeKey U →
  providers (sl (Get U m).2) !! k = providers (sl m) !! k.
Proof.
  intros Hk. unfold Get, noProvider, getInstance.
  destruct (instances (sl m) !! getTypeKey U); [done|].
  destruct (providers (sl m) !! getTypeKey U) as [[T' ls|T' p]|]; [| |done].
  - destruct (decide (T' = U)); [|done].
    destruct (provider ls); [|done]. destruct (once ls); [done|].
    simpl. by rewrite lookup_insert_ne.
  - destruct (decide (T' = U)); [|done]. by destruct p.
Qed.

(** A call for another type leaves the entries of a non-interface type
    alone. *)
Lemma exec_other_type T o m :
  is_interface T = false → op_type o ≠ T →
  instances (sl (exec o m)) !! Some T = instances (sl m) !! Some T ∧
  providers (sl (exec o m)) !! Some T = providers (sl m) !! Some T.
Proof.
  intros HT Ho.
  assert (getTypeKey (op_type o) ≠ Some T) as Hk.
  { intros Hk. apply Ho. by apply key_eq_concrete. }
  destruct o as [U inst|U p|U p|U]; simpl in *.
  - by rewrite lookup_insert_ne.
  - by rewrite lookup_insert_ne.
  - by rewrite lookup_insert_ne.
  - split; [|by apply Get_providers].
    destruct (Get_instances U m) as [->|[_ [x ->]]]; [done|].
    by rewrite lookup_insert_ne.
Qed.

(** Type isolation for a non-interface type [T]: if nothing is stored
    under its key, no sequence of calls for other types makes [Get] for [T]
    succeed; it fails with the message that names [T]. *)
Lemma unregistered_concrete_isolated T os m :
  is_interface T = false →
  instances (sl m) !! getTypeKey T = None →
  providers (sl m) !! getTypeKey T = None →
  Forall (λ o, op_type o ≠ T) os →
  Get T (run os m)
  = (Err ("no provider registered for type " ++ ty_name T), run os m).
Proof.
  intros HT Hi Hp Hos. rewrite getTypeKey_concrete in Hi, Hp by done.
  revert m Hi Hp. induction Hos as [|o os Ho _ IH]; intros m Hi Hp.
  - simpl. rewrite Get_no_entry by (by rewrite getTypeKey_concrete).
    unfold Errorf, zero. by rewrite HT.
  - simpl. destruct (exec_other_type T o m HT Ho) as [Hi' Hp'].
    apply IH; congruence.
Qed.

End Footprint.

(** ** Registration and retrieval: the frame of each operation *)

Section Retrieval.

Context {W : Type}.
Implicit Types (m : Machine W) (T U : GoType) (v : any) (f : W → any * W).

Lemma assertType_not_Err v T msg : assertType v T ≠ Err msg.
Proof.
  destruct v as [|D b]; simpl; [done|].
  destruct (is_interface T); [destruct (implements D T)|destruct (decide (D = T))]; done.
Qed.

(** C8: [RegisterSingleton] for [T] leaves the [providers] mapping as it
    was, so a lazy singleton or factory registered for [T] stays stored; in
    [instances] it writes the key of [T] and no other; it runs no
    constructor; and the next [Get] for [T] answers from the stored
    instance (the assertion on the instance path) without consulting or
    changing the provider entry, which is thereby shadowed. *)
Theorem C8_RegisterSingleton_frame T v m :
  let m' := RegisterSingleton T v m in
  providers (sl m') = providers (sl m) ∧
  providers (sl m') !! getTypeKey T = providers (sl m) !! getTypeKey T ∧
  (∀ k, k ≠ getTypeKey T → instances (sl m') !! k = instances (sl m) !! k) ∧
  instances (sl m') !! getTypeKey T = Some v ∧
  world m' = world m ∧ calls m' = calls m ∧
  Get T m' = (assertType v T, m').
Proof.
  simpl. repeat split.
  - intros k Hk. by apply lookup_insert_ne.
  - apply lookup_insert_eq.
  - apply Get_instance_path. simpl. apply lookup_insert_eq.
Qed.

(** C10: when [Get] returns an error, whichever of its two failure paths
    produced it, the machine after the call is the machine before it:
    [instances], [providers], the user world and the record of constructor
    runs are untouched, and repeating the retrieval any number of times
    yields the same error and still changes nothing. *)
Theorem C10_failed_Get_changes_nothing T m msg m' n :
  Get T m = (Err msg, m') →
  m' = m ∧ GetN T n m = (replicate n (Err msg), m).
Proof.
  intros H.
  assert (m' = m) as ->.
  { revert H. unfold Get, noProvider, getInstance.
    destruct (instances (sl m) !! getTypeKey T) as [inst|].
    { intros [= H _]. by apply assertType_not_Err in H. }
    destruct (providers (sl m) !! getTypeKey T) as [[T' ls|T' p]|].
    - destruct (decide (T' = T)); [|congruence].
      destruct (provider ls); [|congruence]. by destruct (once ls).
    - destruct (decide (T' = T)); [|congruence]. by destruct p.
    - congruence. }
  split; [done|]. by apply GetN_fixed.
Qed.

(** The lazy record as [RegisterLazySingleton] stores it, reached by [Get]
    with an absent constructor. *)
Lemma Get_lazy_absent T m :
  instances (sl m) !! getTypeKey T = None →
  Get T (RegisterLazySingleton T None m)
  = (Err (Errorf (zero T)), RegisterLazySingleton T None m).
Proof.
  intros Hi. unfold Get. simpl. rewrite Hi, lookup_insert_eq.
  by rewrite decide_True.
Qed.

(** C3, as the code has it: the two failure paths of [Get] are not told
    apart by their error. A type with neither instance nor provider and a
    lazy singleton registered with an absent constructor both fail with the
    one message [no provider registered for type T]; the failure of the
    absent constructor changes nothing and recurs identically on every
    call. *)
Theorem C3_both_failures_one_error T m1 m2 n :
  instances (sl m1) !! getTypeKey T = None →
  providers (sl m1) !! getTypeKey T = None →
  instances (sl m2) !! getTypeKey T = None →
  let m2' := RegisterLazySingleton T None m2 in
  Get T m1 = (Err (Errorf (zero T)), m1) ∧
  Get T m2' = (Err (Errorf (zero T)), m2') ∧
  GetN T n m2' = (replicate n (Err (Errorf (zero T))), m2').
Proof.
  intros Hi1 Hp1 Hi2. simpl. split; [by apply Get_no_entry|].
  pose proof (Get_lazy_absent T m2 Hi2) as H.
  split; [done|]. by apply GetN_fixed.
Qed.

End Retrieval.

(** ** Lazy singletons and factories *)

Section Constructors.

Context {W : Type}.
Implicit Types (m : Machine W) (T U : GoType) (v : any) (f : W → any * W).

Lemma Errorf_zero_concrete T :
  is_interface T = false →
  Errorf (zero T) = "no provider registered for type " ++ ty_name T.
Proof. unfold Errorf, zero. by intros ->. Qed.

(** The first retrieval of a lazy singleton registered over a free key. *)
Lemma Get_lazy_first T f m :
  instances (sl m) !! getTypeKey T = None →
  let r := f (world m) in
  let m2 := (Get T (RegisterLazySingleton T (Some f) m)).2 in
  (Get T (RegisterLazySingleton T (Some f) m)).1 = Ok r.1 ∧
  instances (sl m2) = <[getTypeKey T := r.1]> (instances (sl m)) ∧
  providers (sl m2) !! getTypeKey T
  = Some (LazyPtr T {| once := true; instance := r.1; provider := Some f |}) ∧
  world m2 = r.2 ∧ calls m2 = T :: calls m.
Proof.
  intros Hi. unfold Get. simpl. rewrite Hi, lookup_insert_eq.
  rewrite decide_True by done. unfold getInstance. simpl.
  repeat split. apply lookup_insert_eq.
Qed.

(** C4, as the code has it: for a lazy singleton registered with a present
    constructor under a key that holds no instance, registration runs no
    constructor and stores no instance; the first [Get] runs the
    constructor once on the current world and publishes its value in
    [instances]; and, the value being a non-nil value of [T], every one of
    any number of [Get]s for [T] returns that same value, the later ones
    from [instances], leaving the whole machine (provider record, world and
    record of constructor runs) untouched, so that the constructor has run
    exactly once. *)
Theorem C4_lazy_singleton_built_once T f m n :
  instances (sl m) !! getTypeKey T = None →
  has_type T (f (world m)).1 = true →
  (f (world m)).1 ≠ Nil →
  let v := (f (world m)).1 in
  let m1 := RegisterLazySingleton T (Some f) m in
  let m2 := (Get T m1).2 in
  (instances (sl m1) = instances (sl m) ∧ world m1 = world m ∧ calls m1 = calls m) ∧
  GetN T (S n) m1 = (replicate (S n) (Ok v), m2) ∧
  instances (sl m2) !! getTypeKey T = Some v ∧
  world m2 = (f (world m)).2 ∧
  calls m2 = T :: calls m ∧
  GetN T n m2 = (replicate n (Ok v), m2).
Proof.
  intros Hi Hty Hnn. simpl.
  destruct (Get_lazy_first T f m Hi) as (Hr & Hinst & _ & Hw & Hc).
  set (m1 := RegisterLazySingleton T (Some f) m) in *.
  set (m2 := (Get T m1).2) in *.
  assert (instances (sl m2) !! getTypeKey T = Some (f (world m)).1) as Hk.
  { rewrite Hinst. apply lookup_insert_eq. }
  assert (GetN T n m2 = (replicate n (Ok (f (world m)).1), m2)) as Hn.
  { apply GetN_fixed. rewrite (Get_instance_path _ _ _ Hk).
    by rewrite assertType_typed. }
  split; [done|]. split; [|done].
  change (GetN T (S n) m1)
    with (((Get T m1).1 :: (GetN T n m2).1, (GetN T n m2).2)).
  by rewrite Hr, Hn.
Qed.

(** A retrieval through a registered factory, in any world. *)
Lemma Get_factory T f m :
  instances (sl m) !! getTypeKey T = None →
  providers (sl m) !! getTypeKey T = Some (Func T (Some f)) →
  Get T m = (Ok (f (world m)).1,
             {| sl := sl m; world := (f (world m)).2; calls := T :: calls m |}).
Proof. intros Hi Hp. unfold Get. rewrite Hi, Hp. by rewrite decide_True. Qed.

Lemma GetN_factory T f n m :
  instances (sl m) !! getTypeKey T = None →
  providers (sl m) !! getTypeKey T = Some (Func T (Some f)) →
  sl (GetN T n m).2 = sl m ∧ calls (GetN T n m).2 = (replicate n T ++ calls m)%list.
Proof.
  revert m. induction n as [|n IH]; intros m Hi Hp; [done|].
  simpl. rewrite (Get_factory T f m Hi Hp). simpl.
  destruct (IH {| sl := sl m; world := (f (world m)).2; calls := T :: calls m |})
    as [Hs Hc]; [done..|].
  rewrite Hs, Hc. simpl. split; [done|].
  by rewrite cons_middle, app_assoc, <- replicate_cons_app.
Qed.

(** C6, as the code has it: after [RegisterFactory] with a present
    constructor for a type whose key holds no instance, every [Get] for the
    type runs the constructor once, on the world the previous run left, and
    returns what that run returned; nothing is cached: [instances] and
    [providers] stay as registration left them however many retrievals
    follow. Two retrievals in a row therefore return distinct instances
    exactly when the constructor's two runs do. *)
Theorem C6_factory_runs_on_every_Get T f m n :
  instances (sl m) !! getTypeKey T = None →
  let m0 := RegisterFactory T (Some f) m in
  let r1 := f (world m) in
  let r2 := f r1.2 in
  (instances (sl m0) = instances (sl m) ∧ world m0 = world m ∧ calls m0 = calls m) ∧
  Get T m0 = (Ok r1.1, {| sl := sl m0; world := r1.2; calls := T :: calls m |}) ∧
  Get T (Get T m0).2
  = (Ok r2.1, {| sl := sl m0; world := r2.2; calls := T :: T :: calls m |}) ∧
  (r1.1 ≠ r2.1 ↔ (Get T m0).1 ≠ (Get T (Get T m0).2).1) ∧
  sl (GetN T n m0).2 = sl m0 ∧
  calls (GetN T n m0).2 = (replicate n T ++ calls m)%list.
Proof.
  intros Hi. simpl.
  set (m0 := RegisterFactory T (Some f) m).
  assert (instances (sl m0) !! getTypeKey T = None) as Hi0 by done.
  assert (providers (sl m0) !! getTypeKey T = Some (Func T (Some f))) as Hp0.
  { simpl. apply lookup_insert_eq. }
  pose proof (Get_factory T f m0 Hi0 Hp0) as H1. simpl in H1.
  split; [done|]. split; [done|].
  rewrite H1. simpl.
  rewrite (Get_factory T f); [|done..]. simpl.
  split; [done|]. split; [split; congruence|].
  apply (GetN_factory T f n m0 Hi0 Hp0).
Qed.

(** Once an instance is stored under the key of [T], registering a lazy
    singleton or a factory for [T] does not change what [Get] does: it
    answers from the stored instance and runs no constructor. *)
Lemma stored_instance_shadows_provider T v (p : Provider W) m n :
  instances (sl m) !! getTypeKey T = Some v →
  GetN T n (RegisterLazySingleton T p m)
  = (replicate n (assertType v T), RegisterLazySingleton T p m) ∧
  GetN T n (RegisterFactory T p m)
  = (replicate n (assertType v T), RegisterFactory T p m).
Proof.
  intros Hv. split; apply GetN_fixed; by apply Get_instance_path.
Qed.

(** When the stored instance is a non-nil value of [T], it is what
    every [Get] returns after such a registration. *)
Lemma materialized_instance_returned T v (p : Provider W) m n :
  instances (sl m) !! getTypeKey T = Some v →
  has_type T v = true → v ≠ Nil →
  GetN T n (RegisterLazySingleton T p m)
  = (replicate n (Ok v), RegisterLazySingleton T p m) ∧
  GetN T n (RegisterFactory T p m)
  = (replicate n (Ok v), RegisterFactory T p m).
Proof.
  intros Hv Hty Hnn.
  rewrite <- (assertType_typed T v Hty Hnn).
  by apply stored_instance_shadows_provider.
Qed.

End Constructors.

(** ** The registry on concrete programs

    The user world is a bump allocator: the next free address. *)

(** C2: the key is a function of the type parameter alone, so equal type
    parameters give equal keys; but the derivation is not injective:
    [error] and [fmt.Stringer], two distinct interface types, both get the
    nil key, because the zero value of an interface type boxes to the nil
    interface and [reflect.TypeOf] of that is nil. *)
Example C2_interface_keys_collide :
  error_t ≠ Stringer ∧
  getTypeKey error_t = None ∧ getTypeKey Stringer = None ∧
  getTypeKey error_t = getTypeKey Stringer.
Proof. repeat split; done. Qed.

(** C1: after [RegisterSingleton[error](sl, e)] with [e] a
    [*errors.errorString], [Get[fmt.Stringer](sl)] finds its key (nil, the
    same as that of [error]) in [instances]; the stored value is not of
    type [fmt.Stringer] and the assertion panics. Likewise a nil [error]
    registered as a singleton is found by [Get[error]] and the assertion
    on it panics. *)
Example C1_instance_cast_panics :
  let m := RegisterSingleton error_t e16 (boot 0) in
  let m0 := RegisterSingleton error_t Nil (boot 0) in
  has_type error_t e16 = true ∧
  instances (sl m) !! getTypeKey Stringer = Some e16 ∧
  has_type Stringer e16 = false ∧
  Get Stringer m = (Panic InterfaceConversion, m) ∧
  has_type error_t Nil = true ∧
  instances (sl m0) !! getTypeKey error_t = Some Nil ∧
  Get error_t m0 = (Panic InterfaceConversion, m0).
Proof. repeat split; vm_compute; reflexivity. Qed.

(** C5: [RegisterSingleton[error](sl, e)], then
    [RegisterSingleton[fmt.Stringer](sl, s)], which is no registration for
    [error]: the second call overwrites the entry of the first, both types
    having the nil key, and [Get[error]] panics on [s] instead of returning
    [e]. And after [RegisterSingleton[error](sl, nil)] alone, [Get[error]]
    panics instead of returning the nil error. *)
Example C5_interface_singleton_not_returned :
  let m := RegisterSingleton Stringer n32 (RegisterSingleton error_t e16 (boot 0)) in
  let m0 := RegisterSingleton error_t Nil (boot 0) in
  has_type error_t e16 = true ∧ has_type Stringer n32 = true ∧
  ¬ registers_singleton_for (W:=Z) error_t (OpRegisterSingleton Stringer n32) ∧
  (Get error_t m).1 = Panic InterfaceConversion ∧
  (Get error_t m).1 ≠ Ok e16 ∧
  has_type error_t Nil = true ∧
  (Get error_t m0).1 = Panic InterfaceConversion.
Proof. repeat split; vm_compute; congruence. Qed.

(** C7: on the empty registry [Get[error]] fails with the message
    [no provider registered for type <nil>], which does not name [error]
    and is the very message [Get[fmt.Stringer]] fails with; and after
    [RegisterSingleton[fmt.Stringer](sl, s)], a registration for another
    type, [Get[error]] no longer fails with that error but panics. *)
Example C7_interface_type_not_surfaced :
  let m := RegisterSingleton Stringer n32 (boot 0) in
  (Get error_t (boot 0)).1 = Err "no provider registered for type <nil>" ∧
  (Get Stringer (boot 0)).1 = (Get error_t (boot 0)).1 ∧
  error_t ≠ Stringer ∧ has_type Stringer n32 = true ∧
  (Get error_t m).1 = Panic InterfaceConversion.
Proof. repeat split; vm_compute; congruence. Qed.

(** C9: a lazy singleton of type [error] whose constructor returns the nil
    error materializes on the first [Get], which returns nil and publishes
    it in [instances]; after a later [RegisterFactory[error]] (or
    [RegisterLazySingleton[error]]) the next [Get[error]] runs no
    constructor, as the claim says, but panics on the stored nil instead of
    returning the materialized value. *)
Example C9_materialized_nil_not_returned :
  let m1 := RegisterLazySingleton error_t (Some (const Nil)) (boot 0) in
  let m2 := (Get error_t m1).2 in
  let m3 := RegisterFactory error_t (Some (alloc errorStringPtr)) m2 in
  let m3' := RegisterLazySingleton error_t (Some (alloc errorStringPtr)) m2 in
  has_type error_t (const Nil 0).1 = true ∧
  (Get error_t m1).1 = Ok Nil ∧
  instances (sl m2) !! getTypeKey error_t = Some Nil ∧
  calls m2 = [error_t] ∧
  Get error_t m3 = (Panic InterfaceConversion, m3) ∧
  Get error_t m3' = (Panic InterfaceConversion, m3').
Proof. repeat split; vm_compute; reflexivity. Qed.

(** C3, the claim refuted: on the empty registry and on a registry where
    [*TestService] is a lazy singleton with an absent constructor, [Get]
    fails with the same error, not with two distinct ones. *)
Lemma C3_the_two_errors_coincide :
  let unregistered := (Get TestServicePtr (boot 0)).1 in
  let absent := (Get TestServicePtr (RegisterLazySingleton TestServicePtr None (boot 0))).1 in
  unregistered = Err "no provider registered for type *locator_test.TestService" ∧
  absent = Err "no provider registered for type *locator_test.TestService" ∧
  ¬ (unregistered ≠ absent).
Proof. repeat split; vm_compute; congruence. Qed.

Lemma C3_both_failures_one_error_witness :
  GetN TestServicePtr 3 (RegisterLazySingleton TestServicePtr None (boot 0))
  = (replicate 3 (Err "no provider registered for type *locator_test.TestService"),
     RegisterLazySingleton TestServicePtr None (boot 0)).
Proof.
  apply (C3_both_failures_one_error TestServicePtr (boot 0) (boot 0) 3); reflexivity.
Defined.

(** C4, the claim refuted: a lazy singleton registered for a type that
    already has a singleton never has its constructor run; three [Get]s
    return the singleton and record no constructor run. *)
Lemma C4_constructor_never_runs_behind_instance :
  let m := RegisterLazySingleton TestServicePtr (Some (alloc TestServicePtr))
             (RegisterSingleton TestServicePtr t64 (boot 100)) in
  GetN TestServicePtr 3 m = (replicate 3 (Ok t64), m) ∧
  calls (GetN TestServicePtr 3 m).2 = [] ∧
  (alloc TestServicePtr 100).1 ≠ t64.
Proof. repeat split; vm_compute; congruence. Qed.

Lemma C4_lazy_singleton_built_once_witness :
  let m1 := RegisterLazySingleton TestServicePtr (Some (alloc TestServicePtr)) (boot 100) in
  GetN TestServicePtr 3 m1 = (replicate 3 (Ok (Box TestServicePtr 100)), (Get TestServicePtr m1).2) ∧
  calls (Get TestServicePtr m1).2 = [TestServicePtr].
Proof.
  destruct (C4_lazy_singleton_built_once TestServicePtr (alloc TestServicePtr) (boot 100) 2)
    as (_ & H & _ & _ & Hc & _); [reflexivity | reflexivity | discriminate |].
  split; [exact H | exact Hc].
Defined.

(** C6, the claim refuted: a factory whose constructor hands out one shared
    pointer makes two [Get]s in a row return the identical instance; and a
    factory registered for a type that already has a singleton is never
    run by [Get]. *)
Lemma C6_factory_results_may_coincide :
  let m := RegisterFactory TestServicePtr (Some (const t64)) (boot 0) in
  let s := RegisterFactory TestServicePtr (Some (alloc TestServicePtr))
             (RegisterSingleton TestServicePtr t64 (boot 100)) in
  (Get TestServicePtr m).1 = Ok t64 ∧
  (Get TestServicePtr (Get TestServicePtr m).2).1 = Ok t64 ∧
  GetN TestServicePtr 2 s = ([Ok t64; Ok t64], s) ∧
  calls (GetN TestServicePtr 2 s).2 = [].
Proof. repeat split; vm_compute; reflexivity. Qed.

Lemma C6_factory_runs_on_every_Get_witness :
  let m0 := RegisterFactory TestServicePtr (Some (alloc TestServicePtr)) (boot 100) in
  (Get TestServicePtr m0).1 = Ok (Box TestServicePtr 100) ∧
  (Get TestServicePtr (Get TestServicePtr m0).2).1 = Ok (Box TestServicePtr 101) ∧
  calls (GetN TestServicePtr 5 m0).2 = replicate 5 TestServicePtr.
Proof.
  destruct (C6_factory_runs_on_every_Get TestServicePtr (alloc TestServicePtr) (boot 100) 5)
    as (_ & H1 & H2 & _ & _ & Hc); [reflexivity|].
  split; [by rewrite H1|]. split; [by rewrite H2|]. exact Hc.
Defined.

Lemma C10_failed_Get_changes_nothing_witness :
  GetN TestServicePtr 4 (boot 0)
  = (replicate 4 (Err "no provider registered for type *locator_test.TestService"), boot 0).
Proof.
  apply (C10_failed_Get_changes_nothing TestServicePtr (boot 0)
           "no provider registered for type *locator_test.TestService" (boot 0) 4).
  reflexivity.
Defined.


(** ** How registrations compose *)

Section Registration.

Context {W : Type}.
Implicit Types (m : Machine W) (T U : GoType) (v : any) (p q : Provider W).

(** When two type parameters get the same key: exactly when they are the
    same type or both are interface types. *)
Theorem getTypeKey_eq_iff T U :
  getTypeKey T = getTypeKey U ↔
  T = U ∨ (is_interface T = true ∧ is_interface U = true).
Proof.
  unfold getTypeKey, zero.
  destruct (is_interface T) eqn:HT, (is_interface U) eqn:HU; simpl.
  - naive_solver.
  - split; [done|]. intros [->|[_ ?]]; congruence.
  - split; [done|]. intros [->|[? _]]; congruence.
  - split; [intros [= ->]; by left|]. intros [->|[? _]]; congruence.
Qed.

(** Registering a singleton twice for one type is registering the second
    value alone, whatever the registry held; the first value is
    unreachable and [Get] returns the second. *)
Theorem RegisterSingleton_last_wins T v1 v2 m :
  has_type T v2 = true → v2 ≠ Nil →
  RegisterSingleton T v2 (RegisterSingleton T v1 m) = RegisterSingleton T v2 m ∧
  Get T (RegisterSingleton T v2 (RegisterSingleton T v1 m))
  = (Ok v2, RegisterSingleton T v2 m).
Proof.
  intros Hty Hnn.
  assert (RegisterSingleton T v2 (RegisterSingleton T v1 m) = RegisterSingleton T v2 m) as ->.
  { unfold RegisterSingleton. simpl. by rewrite insert_insert_eq. }
  split; [done|].
  rewrite (Get_instance_path T _ v2) by (simpl; apply lookup_insert_eq).
  by rewrite assertType_typed.
Qed.

(** [providers] has one entry per key: a lazy singleton or a factory
    registered for a type replaces whatever provider was registered for it
    before, lazy singleton or factory alike. *)
Theorem provider_registration_last_wins T p q m :
  RegisterFactory T p (RegisterLazySingleton T q m) = RegisterFactory T p m ∧
  RegisterFactory T p (RegisterFactory T q m) = RegisterFactory T p m ∧
  RegisterLazySingleton T p (RegisterFactory T q m) = RegisterLazySingleton T p m ∧
  RegisterLazySingleton T p (RegisterLazySingleton T q m) = RegisterLazySingleton T p m.
Proof.
  unfold RegisterFactory, RegisterLazySingleton. simpl.
  by rewrite !insert_insert_eq.
Qed.

(** Two registrations whose types have different keys can be made in
    either order, and so can a singleton registration and a provider
    registration of any two types, the same type included: they write to
    different mappings. *)
Theorem registrations_commute (o1 o2 : op W) m :
  is_registration o1 → is_registration o2 →
  getTypeKey (op_type o1) ≠ getTypeKey (op_type o2) ∨
  writes_instances o1 ≠ writes_instances o2 →
  exec o1 (exec o2 m) = exec o2 (exec o1 m).
Proof.
  intros H1 H2 H.
  destruct o1 as [T v|T p|T p|T], o2 as [U u|U q|U q|U]; try done; simpl in *;
    unfold RegisterSingleton, RegisterLazySingleton, RegisterFactory; simpl;
    try reflexivity;
    (destruct H as [Hk|Hw]; [|done]);
    f_equal; f_equal; by apply insert_insert_ne.
Qed.

End Registration.

(** ** What holds in every state a program reaches *)

Section Reachable.

Context {W : Type}.
Implicit Types (m : Machine W) (T U : GoType) (v : any) (k : option GoType).

Lemma is_Some_insert {A} (M : gmap (option GoType) A) j k x :
  is_Some (M !! k) → is_Some (<[j := x]> M !! k).
Proof.
  intros H. destruct (decide (j = k)) as [->|Hjk].
  - rewrite lookup_insert_eq. eauto.
  - by rewrite lookup_insert_ne.
Qed.

Lemma registry_inv_boot (w : W) : registry_inv (boot w).
Proof. split; intros *; simpl; by rewrite lookup_empty. Qed.

Lemma registry_inv_Get T m : registry_inv m → registry_inv (Get T m).2.
Proof.
  intros Hm. unfold Get, noProvider, getInstance.
  destruct (instances (sl m) !! getTypeKey T); [done|].
  destruct (providers (sl m) !! getTypeKey T) as [[T' ls|T' p]|]; [| |done].
  - destruct (decide (T' = T)) as [->|]; [|done].
    destruct (provider ls) as [f|]; [|done]. destruct (once ls); [done|].
    destruct Hm as [Hk Ha Hu Hf]. split; simpl; intros k.
    + intros rec. destruct (decide (getTypeKey T = k)) as [<-|Hne].
      * rewrite lookup_insert_eq. by intros [= <-].
      * rewrite lookup_insert_ne by done. apply Hk.
    + intros U ls'. destruct (decide (getTypeKey T = k)) as [<-|Hne].
      * rewrite lookup_insert_eq. by intros [= <- <-].
      * rewrite lookup_insert_ne by done. apply Ha.
    + intros U ls'. destruct (decide (getTypeKey T = k)) as [<-|Hne].
      * rewrite lookup_insert_eq. by intros [= <- <-].
      * rewrite lookup_insert_ne by done. apply Hu.
    + intros U ls'. destruct (decide (getTypeKey T = k)) as [<-|Hne].
      * rewrite !lookup_insert_eq. eauto.
      * rewrite !lookup_insert_ne by done. apply Hf.
  - destruct (decide (T' = T)); [|done]. destruct p; [|done].
    destruct Hm as [Hk Ha Hu Hf]. by split.
Qed.

Lemma registry_inv_exec (o : op W) m : registry_inv m → registry_inv (exec o m).
Proof.
  destruct o as [T inst|T p|T p|T]; simpl; intros Hm;
    [| | |by apply registry_inv_Get]; destruct Hm as [Hk Ha Hu Hf].
  - split; simpl; [done..|]. intros k U ls Hl Ho.
    apply is_Some_insert. by eapply Hf.
  - split; simpl; intros k.
    + intros rec. destruct (decide (getTypeKey T = k)) as [<-|Hne].
      * rewrite lookup_insert_eq. by intros [= <-].
      * rewrite lookup_insert_ne by done. apply Hk.
    + intros U ls. destruct (decide (getTypeKey T = k)) as [<-|Hne].
      * rewrite lookup_insert_eq. by intros [= <- <-].
      * rewrite lookup_insert_ne by done. apply Ha.
    + intros U ls. destruct (decide (getTypeKey T = k)) as [<-|Hne].
      * rewrite lookup_insert_eq. by intros [= <- <-].
      * rewrite lookup_insert_ne by done. apply Hu.
    + intros U ls. destruct (decide (getTypeKey T = k)) as [<-|Hne].
      * rewrite lookup_insert_eq. by intros [= <- <-].
      * rewrite lookup_insert_ne by done. apply Hf.
  - split; simpl; intros k.
    + intros rec. destruct (decide (getTypeKey T = k)) as [<-|Hne].
      * rewrite lookup_insert_eq. by intros [= <-].
      * rewrite lookup_insert_ne by done. apply Hk.
    + intros U ls. destruct (decide (getTypeKey T = k)) as [<-|Hne].
      * by rewrite lookup_insert_eq.
      * rewrite lookup_insert_ne by done. apply Ha.
    + intros U ls. destruct (decide (getTypeKey T = k)) as [<-|Hne].
      * by rewrite lookup_insert_eq.
      * rewrite lookup_insert_ne by done. apply Hu.
    + intros U ls. destruct (decide (getTypeKey T = k)) as [<-|Hne].
      * by rewrite lookup_insert_eq.
      * rewrite lookup_insert_ne by done. apply Hf.
Qed.

Lemma registry_inv_run (os : list (op W)) m :
  registry_inv m → registry_inv (run os m).
Proof.
  revert m. induction os as [|o os IH]; intros m Hm; [done|].
  simpl. apply IH. by apply registry_inv_exec.
Qed.

(** In every state a program reaches from the empty registry: each
    provider entry sits under the key of the type it was registered with; a
    lazy record whose constructor is absent has not fired its gate; a
    record whose gate has not fired holds the zero value; and a record
    whose gate has fired has its key in [instances], so [Get] never reads a
    fired record: it answers from [instances] first. *)
Theorem reachable_registry_inv (os : list (op W)) (w : W) k T ls :
  providers (sl (run os (boot w))) !! k = Some (LazyPtr T ls) →
  getTypeKey T = k ∧
  (provider ls = None → once ls = false) ∧
  (once ls = false → instance ls = zero T) ∧
  (once ls = true → is_Some (instances (sl (run os (boot w))) !! k)) ∧
  (instances (sl (run os (boot w))) !! k = None → once ls = false).
Proof.
  intros Hl.
  destruct (registry_inv_run os (boot w) (registry_inv_boot w)) as [Hk Ha Hu Hf].
  split; [apply (Hk _ _ Hl)|].
  split; [by apply (Ha _ _ _ Hl)|].
  split; [by apply (Hu _ _ _ Hl)|].
  split; [by apply (Hf _ _ _ Hl)|].
  intros Hnone. destruct (once ls) eqn:Ho; [|done].
  destruct (Hf _ _ _ Hl Ho) as [x Hx]. congruence.
Qed.

(** Whatever a program did before, an error returned by [Get] for [T]
    carries the one message built from the zero value of [T]. *)
Theorem Get_error_message (os : list (op W)) (w : W) T msg m' :
  Get T (run os (boot w)) = (Err msg, m') →
  msg = Errorf (zero T).
Proof.
  destruct (registry_inv_run os (boot w) (registry_inv_boot w)) as [Hk Ha Hu Hf].
  unfold Get, noProvider, getInstance.
  destruct (instances _ !! getTypeKey T) as [inst|].
  { intros [= H _]. by apply assertType_not_Err in H. }
  destruct (providers _ !! getTypeKey T) as [[T' ls|T' p]|] eqn:Hp.
  - destruct (decide (T' = T)) as [->|]; [|congruence].
    destruct (provider ls) eqn:Hpr; [by destruct (once ls)|].
    intros [= <- _]. f_equal. eapply Hu; [done|]. by eapply Ha.
  - destruct (decide (T' = T)); [|congruence]. by destruct p.
  - congruence.
Qed.

(** For a non-interface type, in every state a well-typed program
    reaches, [Get] panics in one situation only: no instance is stored and
    the registered provider is a factory whose func value is nil. The
    panic is the call of the nil func, and nothing has been written. *)
Theorem Get_panics_only_on_nil_factory (os : list (op W)) (w : W) T pn m' :
  Forall typed_op os → is_interface T = false →
  Get T (run os (boot w)) = (Panic pn, m') →
  pn = NilFuncCall ∧ m' = run os (boot w) ∧
  instances (sl (run os (boot w))) !! getTypeKey T = None ∧
  providers (sl (run os (boot w))) !! getTypeKey T = Some (Func T None).
Proof.
  intros Hos HT.
  pose proof (typed_registry_run os (boot w) Hos (typed_registry_boot w)) as [HI _].
  unfold Get, noProvider, getInstance.
  destruct (instances _ !! getTypeKey T) as [inst|] eqn:Hi.
  { rewrite getTypeKey_concrete in Hi by done.
    rewrite assertType_typed; [done|by eapply HI|].
    eapply has_type_concrete_not_nil; [done|by eapply HI]. }
  destruct (providers _ !! getTypeKey T) as [[T' ls|T' p]|] eqn:Hp; [| |done].
  - destruct (decide (T' = T)); [|done].
    destruct (provider ls); [|done]. by destruct (once ls).
  - destruct (decide (T' = T)) as [->|]; [|done].
    destruct p; [done|]. by intros [= <- <-].
Qed.

(** A factory registered with a nil func value is accepted, and each
    retrieval through it panics on the call and changes nothing; a lazy
    singleton registered with a nil func value makes the same retrievals
    return an error instead. *)
Theorem nil_factory_panics_nil_lazy_errs T m n :
  instances (sl m) !! getTypeKey T = None →
  GetN T n (RegisterFactory T None m)
  = (replicate n (Panic NilFuncCall), RegisterFactory T None m) ∧
  GetN T n (RegisterLazySingleton T None m)
  = (replicate n (Err (Errorf (zero T))), RegisterLazySingleton T None m).
Proof.
  intros Hi. split; apply GetN_fixed.
  - unfold Get. simpl. rewrite Hi, lookup_insert_eq. by rewrite decide_True.
  - unfold Get. simpl. rewrite Hi, lookup_insert_eq. by rewrite decide_True.
Qed.

Lemma exec_keeps_entries (o : op W) m k :
  (is_Some (instances (sl m) !! k) → is_Some (instances (sl (exec o m)) !! k)) ∧
  (is_Some (providers (sl m) !! k) → is_Some (providers (sl (exec o m)) !! k)).
Proof.
  destruct o as [T inst|T p|T p|T]; simpl;
    try (split; [done || apply is_Some_insert|done || apply is_Some_insert]).
  unfold Get, noProvider, getInstance.
  destruct (instances (sl m) !! getTypeKey T); [done|].
  destruct (providers (sl m) !! getTypeKey T) as [[T' ls|T' p]|]; [| |done].
  - destruct (decide (T' = T)); [|done].
    destruct (provider ls); [|done]. destruct (once ls); [done|].
    simpl. split; apply is_Some_insert.
  - destruct (decide (T' = T)); [|done]. by destruct p.
Qed.

(** No call removes an entry: a key that has an instance, or a provider,
    still has one after any program. *)
Theorem entries_never_removed (os : list (op W)) m k :
  (is_Some (instances (sl m) !! k) → is_Some (instances (sl (run os m)) !! k)) ∧
  (is_Some (providers (sl m) !! k) → is_Some (providers (sl (run os m)) !! k)).
Proof.
  revert m. induction os as [|o os IH]; intros m; [done|].
  simpl. destruct (exec_keeps_entries o m k) as [Hi Hp].
  destruct (IH (exec o m)) as [Hi' Hp']. split; eauto.
Qed.

(** What one call adds to the record of constructor runs: a registration
    nothing (and it leaves the user world alone); a [Get] nothing or the
    requested type. *)
Lemma exec_calls (o : op W) m :
  calls (exec o m) = calls m ∨
  ∃ T, o = OpGet T ∧ calls (exec o m) = T :: calls m.
Proof.
  destruct o as [T inst|T p|T p|T]; simpl; try by left.
  unfold Get, noProvider, getInstance.
  destruct (instances (sl m) !! getTypeKey T); [by left|].
  destruct (providers (sl m) !! getTypeKey T) as [[T' ls|T' p]|]; [| |by left].
  - destruct (decide (T' = T)); [|by left].
    destruct (provider ls); [|by left]. destruct (once ls); [by left|].
    right. by exists T.
  - destruct (decide (T' = T)); [|by left].
    destruct p; [|by left]. right. by exists T.
Qed.

(** The registry runs constructors only to serve retrievals: over any
    program the runs it adds are, in order, runs for types the program
    retrieved, at most one per [Get]. *)
Theorem constructor_runs_accounted (os : list (op W)) m :
  ∃ new, calls (run os m) = (new ++ calls m)%list ∧
         new `sublist_of` reverse (requested os).
Proof.
  revert m. induction os as [|o os IH]; intros m.
  { exists []. by split. }
  simpl. destruct (IH (exec o m)) as (new & Hc & Hs).
  destruct (exec_calls o m) as [He|(T & -> & He)].
  - exists new. rewrite Hc, He. split; [done|].
    unfold requested. simpl. destruct o; simpl; try done.
    rewrite reverse_cons. by apply sublist_inserts_r.
  - exists (new ++ [T])%list. rewrite Hc, He. split.
    + by rewrite <- app_assoc.
    + unfold requested. simpl. rewrite reverse_cons.
      by apply sublist_app.
Qed.

End Reachable.

(** ** One type's provider among the calls for other types *)

Section Interleaving.

Context {W : Type}.
Implicit Types (m : Machine W) (T U : GoType) (v : any) (f : W → any * W).

Lemma runs_of_cons_eq T m m' :
  calls m' = T :: calls m → runs_of T m' = S (runs_of T m).
Proof. unfold runs_of. intros ->. by rewrite filter_cons_True. Qed.

Lemma runs_of_cons_ne T U m m' :
  U ≠ T → calls m' = U :: calls m → runs_of T m' = runs_of T m.
Proof. unfold runs_of. intros HU ->. by rewrite filter_cons_False. Qed.

Lemma runs_of_same T m m' : calls m' = calls m → runs_of T m' = runs_of T m.
Proof. unfold runs_of. by intros ->. Qed.

Lemma exec_other_runs T (o : op W) m :
  op_type o ≠ T → runs_of T (exec o m) = runs_of T m.
Proof.
  intros Ho. destruct (exec_calls o m) as [He|(U & -> & He)].
  - by apply runs_of_same.
  - by apply (runs_of_cons_ne T U).
Qed.

Lemma no_reregistration_keeps_singleton T (os : list (op W)) :
  Forall (λ o, op_type o = T → o = OpGet T) os →
  Forall (λ o, ¬ registers_singleton_for T o) os.
Proof.
  intros Hos. eapply Forall_impl; [exact Hos|].
  intros [U x|U p|U p|U] H; simpl in *; try (by intros []).
  intros ->. by specialize (H eq_refl).
Qed.

(** Once a value of [T] is stored under the key of a non-interface [T],
    a program that registers no other singleton for [T] runs no constructor
    for [T], and each of its retrievals of [T] returns that value. *)
Lemma stored_instance_run T v (os : list (op W)) m :
  is_interface T = false → has_type T v = true →
  instances (sl m) !! Some T = Some v →
  Forall (λ o, ¬ registers_singleton_for T o) os →
  runs_of T (run os m) = runs_of T m ∧
  ∀ o, (T, o) ∈ outcomes os m → o = Ok v.
Proof.
  intros HT Hty Hv Hos. revert m Hv.
  induction Hos as [|o os Ho _ IH]; intros m Hv.
  { split; [done|]. simpl. intros o Hin. by apply elem_of_nil in Hin. }
  pose proof (singleton_kept_exec T v o m HT Ho Hv) as Hv'.
  destruct (IH (exec o m) Hv') as [Hr Ho'].
  assert (Get T m = (Ok v, m)) as HG.
  { rewrite (Get_instance_path T m v) by (by rewrite getTypeKey_concrete).
    rewrite assertType_typed; [done..|]. by eapply has_type_concrete_not_nil. }
  assert (runs_of T (exec o m) = runs_of T m) as Hr1.
  { destruct (decide (op_type o = T)) as [He|Hne]; [|by apply exec_other_runs].
    destruct o as [U x|U p|U p|U]; simpl in *; subst; try done. by rewrite HG. }
  split; [simpl; congruence|].
  intros o' Hin. destruct o as [U x|U p|U p|U]; simpl in Hin; try by apply Ho'.
  apply elem_of_cons in Hin as [[= <- ->]|Hin]; [by rewrite HG|by apply Ho'].
Qed.

Lemma requested_cons_other T (o : op W) os :
  op_type o ≠ T → (T ∈ requested (o :: os) ↔ T ∈ requested os).
Proof.
  intros Ho. unfold requested. destruct o as [U x|U p|U p|U]; simpl in *; try done.
  rewrite elem_of_cons. split; [|by right].
  intros [He|Hin]; [by subst|done].
Qed.

(** A lazy singleton of a non-interface type, registered where the type
    has no instance, among any calls for other types: however the
    retrievals of [T] are interleaved with them, the constructor runs once
    if the program retrieves [T] at all and not otherwise, and all the
    retrievals of [T] return one and the same value. *)
Theorem lazy_singleton_once_interleaved T f (os : list (op W)) m :
  is_interface T = false → typed_provider T (Some f) →
  instances (sl m) !! getTypeKey T = None →
  Forall (λ o, op_type o = T → o = OpGet T) os →
  let m1 := RegisterLazySingleton T (Some f) m in
  runs_of T (run os m1)
  = (runs_of T m + if bool_decide (T ∈ requested os) then 1 else 0)%nat ∧
  ∃ v, ∀ o, (T, o) ∈ outcomes os m1 → o = Ok v.
Proof.
  intros HT Hf Hi Hos. simpl.
  rewrite getTypeKey_concrete in Hi by done.
  set (ls := {| once := false; instance := zero T; provider := Some f |}).
  assert (providers (sl (RegisterLazySingleton T (Some f) m)) !! Some T
          = Some (LazyPtr T ls)) as Hp.
  { simpl. rewrite getTypeKey_concrete by done. apply lookup_insert_eq. }
  assert (instances (sl (RegisterLazySingleton T (Some f) m)) !! Some T = None)
    as Hi1 by done.
  change (runs_of T m) with (runs_of T (RegisterLazySingleton T (Some f) m)).
  revert Hi1 Hp. generalize (RegisterLazySingleton T (Some f) m). clear Hi m.
  induction Hos as [|o os Ho Hos IH]; intros m Hi Hp.
  { split; [simpl; lia|]. exists Nil. intros o Hin. by apply elem_of_nil in Hin. }
  destruct (decide (op_type o = T)) as [He|Hne].
  - rewrite (Ho He). simpl.
    assert (Get T m = (Ok (f (world m)).1,
              {| sl := {| instances := <[Some T := (f (world m)).1]> (instances (sl m));
                          providers := <[Some T := LazyPtr T
                              {| once := true; instance := (f (world m)).1;
                                 provider := Some f |}]> (providers (sl m)) |};
                 world := (f (world m)).2; calls := T :: calls m |})) as HG.
    { unfold Get. rewrite getTypeKey_concrete by done. rewrite Hi, Hp.
      rewrite decide_True by done. unfold getInstance. simpl.
      by rewrite getTypeKey_concrete. }
    rewrite HG. simpl.
    destruct (stored_instance_run T (f (world m)).1 os (Get T m).2) as [Hr Ho'];
      [done|by apply Hf|by rewrite HG; simpl; apply lookup_insert_eq
      |by apply no_reregistration_keeps_singleton|].
    rewrite HG in Hr, Ho'. simpl in Hr, Ho'. split.
    + rewrite Hr. rewrite (runs_of_cons_eq T m) by done.
      rewrite bool_decide_eq_true_2; [lia|].
      unfold requested. simpl. apply elem_of_cons. by left.
    + exists (f (world m)).1. intros o' Hin.
      apply elem_of_cons in Hin as [[= ->]|Hin]; [done|by apply Ho'].
  - destruct (exec_other_type T o m HT Hne) as [Hi' Hp'].
    destruct (IH (exec o m)) as [Hr [v Hv]]; [congruence..|].
    split.
    + simpl. rewrite Hr, (exec_other_runs T o m Hne).
      by rewrite (bool_decide_ext _ _ (requested_cons_other T o os Hne)).
    + exists v. intros o' Hin. apply Hv.
      destruct o as [U x|U p|U p|U]; simpl in *; try done.
      apply elem_of_cons in Hin as [[= ? _]|Hin]; [congruence|done].
Qed.

(** A factory of a non-interface type, registered where the type has no
    instance, among any calls for other types: the constructor runs once
    for each retrieval of [T] the program makes, every such retrieval
    succeeds, and no instance is ever stored for [T]. *)
Theorem factory_runs_per_Get_interleaved T f (os : list (op W)) m :
  is_interface T = false →
  instances (sl m) !! getTypeKey T = None →
  Forall (λ o, op_type o = T → o = OpGet T) os →
  let m1 := RegisterFactory T (Some f) m in
  runs_of T (run os m1)
  = (runs_of T m + length (filter (λ U, U = T) (requested os)))%nat ∧
  instances (sl (run os m1)) !! getTypeKey T = None ∧
  ∀ o, (T, o) ∈ outcomes os m1 → ∃ v, o = Ok v.
Proof.
  intros HT Hi Hos. simpl.
  rewrite getTypeKey_concrete in * by done.
  assert (providers (sl (RegisterFactory T (Some f) m)) !! Some T
          = Some (Func T (Some f))) as Hp.
  { simpl. rewrite getTypeKey_concrete by done. apply lookup_insert_eq. }
  assert (instances (sl (RegisterFactory T (Some f) m)) !! Some T = None)
    as Hi1 by done.
  change (runs_of T m) with (runs_of T (RegisterFactory T (Some f) m)).
  revert Hi1 Hp. generalize (RegisterFactory T (Some f) m). clear Hi m.
  induction Hos as [|o os Ho Hos IH]; intros m Hi Hp.
  { split; [simpl; lia|]. split; [done|]. intros o Hin. by apply elem_of_nil in Hin. }
  destruct (decide (op_type o = T)) as [He|Hne].
  - rewrite (Ho He). simpl.
    pose proof (Get_factory T f m) as HG.
    rewrite getTypeKey_concrete in HG by done. specialize (HG Hi Hp).
    rewrite HG. simpl.
    destruct (IH {| sl := sl m; world := (f (world m)).2; calls := T :: calls m |})
      as (Hr & Hn & Ho'); [done..|].
    split; [|split; [done|]].
    + rewrite Hr. rewrite (runs_of_cons_eq T m) by done.
      unfold requested. simpl. rewrite filter_cons_True by done. simpl. lia.
    + intros o' Hin.
      apply elem_of_cons in Hin as [[= ->]|Hin]; [eauto|by apply Ho'].
  - destruct (exec_other_type T o m HT Hne) as [Hi' Hp'].
    destruct (IH (exec o m)) as (Hr & Hn & Ho'); [congruence..|].
    split; [|split; [done|]].
    + simpl. rewrite Hr, (exec_other_runs T o m Hne). f_equal.
      unfold requested. destruct o as [U x|U p|U p|U]; simpl in *; try done.
      by rewrite filter_cons_False.
    + intros o' Hin. apply Ho'.
      destruct o as [U x|U p|U p|U]; simpl in *; try done.
      apply elem_of_cons in Hin as [[= ? _]|Hin]; [congruence|done].
Qed.

End Interleaving.

(** ** The example program *)

Section ExampleProgram.

Import ExampleMain.

Lemma wrap_int_small z : - 2 ^ 63 ≤ z < 2 ^ 63 → wrap_int z = z.
Proof. intros Hz. unfold wrap_int. rewrite Z.mod_small; lia. Qed.

Lemma ChangeX_then_Sum_aux svc x x0 y h :
  cells h !! svc = Some (MyService1 x0 y) →
  ∃ h', ChangeX svc x h = Some h' ∧
        Sum svc h' = Some (wrap_int (x + y)) ∧
        (∀ q, q ≠ svc → cells h' !! q = cells h !! q).
Proof.
  intros Hc. unfold ChangeX. rewrite Hc. eexists. split; [done|].
  unfold Sum. simpl. rewrite lookup_insert_eq. split; [done|].
  intros q Hq. by rewrite lookup_insert_ne.
Qed.

(** [ChangeX] on a pointer to a [MyService1] succeeds, and afterwards
    [Sum] of that pointer is the new [x] plus the old [y] (wrapped to
    [int], hence the exact sum when it fits); every other object and the
    allocator are untouched, so [Sum] of any other pointer is what it
    was. *)
Theorem ChangeX_then_Sum svc x x0 y h :
  cells h !! svc = Some (MyService1 x0 y) →
  ∃ h', ChangeX svc x h = Some h' ∧
        Sum svc h' = Some (wrap_int (x + y)) ∧
        (- 2 ^ 63 ≤ x + y < 2 ^ 63 → Sum svc h' = Some (x + y)) ∧
        (∀ q, q ≠ svc → cells h' !! q = cells h !! q ∧ Sum q h' = Sum q h) ∧
        next h' = next h.
Proof.
  intros Hc. destruct (ChangeX_then_Sum_aux svc x x0 y h Hc) as (h' & HC & HS & HF).
  exists h'. split; [done|]. split; [done|].
  split; [intros Hr; by rewrite HS, wrap_int_small|].
  split.
  - intros q Hq. split; [by apply HF|]. unfold Sum. by rewrite HF.
  - unfold ChangeX in HC. rewrite Hc in HC. by injection HC as <-.
Qed.

(** With [NewService1(x, y)] registered as the factory of [*MyService1]
    and no instance stored for the type, two retrievals in a row return
    two different pointers, and [ChangeX] through the first does not show
    through the second: the first sums to the new [x] plus [y], the second
    still to [x] plus [y]. *)
Theorem factory_services_independent x y x' (m : Machine Heap) :
  instances (sl m) !! getTypeKey MyService1Ptr = None →
  let m0 := RegisterFactory MyService1Ptr (Some (service1Provider x y)) m in
  let r1 := Get MyService1Ptr m0 in
  let r2 := Get MyService1Ptr r1.2 in
  ∃ svc1 svc2 h',
    r1.1 = Ok (Box MyService1Ptr svc1) ∧
    r2.1 = Ok (Box MyService1Ptr svc2) ∧
    svc1 ≠ svc2 ∧
    ChangeX svc1 x' (world r2.2) = Some h' ∧
    Sum svc1 h' = Some (wrap_int (x' + y)) ∧
    Sum svc2 h' = Some (wrap_int (x + y)).
Proof.
  intros Hi. simpl.
  set (m0 := RegisterFactory MyService1Ptr (Some (service1Provider x y)) m).
  assert (providers (sl m0) !! getTypeKey MyService1Ptr
          = Some (Func MyService1Ptr (Some (service1Provider x y)))) as Hp.
  { simpl. apply lookup_insert_eq. }
  rewrite (Get_factory MyService1Ptr (service1Provider x y) m0 Hi Hp). simpl.
  rewrite (Get_factory MyService1Ptr (service1Provider x y)); [|done..]. simpl.
  exists (next (world m)), (next (world m) + 1).
  destruct (ChangeX_then_Sum_aux (next (world m)) x' x y
    {| cells := <[next (world m) + 1 := MyService1 x y]>
                  (<[next (world m) := MyService1 x y]> (cells (world m)));
       next := next (world m) + 1 + 1 |}) as (h' & Hc & Hs & Hf).
  { simpl. rewrite lookup_insert_ne by lia. apply lookup_insert_eq. }
  exists h'. repeat split; [lia|done|done|].
  unfold Sum. rewrite Hf by lia. simpl. by rewrite lookup_insert_eq.
Qed.

(** With [NewService(x)] registered as the lazy singleton of [*MyService]
    and no instance stored for the type, the first retrieval returns a
    pointer to a service holding [x]; after a store to its field the next
    retrieval returns the same pointer without running anything, and the
    field read through it is the stored value. *)
Theorem lazy_service_mutation_visible x x' (m : Machine Heap) :
  instances (sl m) !! getTypeKey MyServicePtr = None →
  let m1 := RegisterLazySingleton MyServicePtr (Some (serviceProvider x)) m in
  let r1 := Get MyServicePtr m1 in
  ∃ svc h',
    r1.1 = Ok (Box MyServicePtr svc) ∧
    load_x svc (world r1.2) = Some x ∧
    store_x svc x' (world r1.2) = Some h' ∧
    Get MyServicePtr (set_world h' r1.2)
    = (Ok (Box MyServicePtr svc), set_world h' r1.2) ∧
    load_x svc h' = Some x'.
Proof.
  intros Hi. simpl.
  destruct (Get_lazy_first MyServicePtr (serviceProvider x) m Hi)
    as (Hr & Hinst & _ & Hw & _).
  set (r1 := Get MyServicePtr _) in *. simpl in Hr, Hw.
  exists (next (world m)). eexists.
  split; [exact Hr|]. rewrite Hw.
  unfold load_x, store_x. simpl. rewrite lookup_insert_eq.
  split; [done|]. split; [done|]. simpl. rewrite lookup_insert_eq.
  split; [|done].
  rewrite (Get_instance_path MyServicePtr _ (Box MyServicePtr (next (world m)))).
  - done.
  - simpl. rewrite Hinst. apply lookup_insert_eq.
Qed.

(** The program prints what the comments in its source announce: 10, 30,
    50, 30, 50 and 100, one per line, and returns. *)
Theorem main_prints :
  main = Returned ("10" ++ nl ++ "30" ++ nl ++ "50" ++ nl ++
                   "30" ++ nl ++ "50" ++ nl ++ "100" ++ nl).
Proof. vm_compute. reflexivity. Qed.

End ExampleProgram.

(** ** The general results at concrete programs *)

Lemma RegisterSingleton_last_wins_witness :
  Get TestServicePtr
    (RegisterSingleton TestServicePtr t64
       (RegisterSingleton TestServicePtr (Box TestServicePtr 8) (boot 0)))
  = (Ok t64, RegisterSingleton TestServicePtr t64 (boot 0)).
Proof.
  apply (RegisterSingleton_last_wins TestServicePtr (Box TestServicePtr 8) t64 (boot 0));
    [reflexivity | discriminate].
Defined.

Lemma registrations_commute_witness :
  RegisterSingleton TestServicePtr t64 (RegisterSingleton error_t e16 (boot 0))
  = RegisterSingleton error_t e16 (RegisterSingleton TestServicePtr t64 (boot 0)).
Proof.
  apply (registrations_commute (OpRegisterSingleton TestServicePtr t64)
           (OpRegisterSingleton error_t e16) (boot 0)); [exact I | exact I |].
  left. vm_compute. discriminate.
Defined.

Lemma reachable_registry_inv_witness :
  getTypeKey TestServicePtr = Some TestServicePtr ∧
  is_Some (instances (sl (run [OpRegisterLazySingleton TestServicePtr
                                 (Some (alloc TestServicePtr));
                               OpGet TestServicePtr] (boot 100)))
           !! Some TestServicePtr).
Proof.
  destruct (reachable_registry_inv
              [OpRegisterLazySingleton TestServicePtr (Some (alloc TestServicePtr));
               OpGet TestServicePtr] 100 (Some TestServicePtr) TestServicePtr
              {| once := true; instance := Box TestServicePtr 100;
                 provider := Some (alloc TestServicePtr) |})
    as (Hk & _ & _ & Hf & _); [reflexivity|].
  split; [exact Hk | exact (Hf eq_refl)].
Defined.

Lemma Get_error_message_witness :
  "no provider registered for type *locator_test.TestService"
  = Errorf (zero TestServicePtr).
Proof.
  apply (Get_error_message [OpRegisterLazySingleton TestServicePtr None] 0
           TestServicePtr _
           (run [OpRegisterLazySingleton TestServicePtr None] (boot 0))).
  reflexivity.
Defined.

Lemma Get_panics_only_on_nil_factory_witness :
  providers (sl (run [OpRegisterFactory TestServicePtr None] (boot 0)))
    !! getTypeKey TestServicePtr = Some (Func TestServicePtr None).
Proof.
  apply (Get_panics_only_on_nil_factory [OpRegisterFactory TestServicePtr None] 0
           TestServicePtr NilFuncCall
           (run [OpRegisterFactory TestServicePtr None] (boot 0))).
  - constructor; [|constructor]. intros f Hf. discriminate Hf.
  - reflexivity.
  - reflexivity.
Defined.

Lemma nil_factory_panics_nil_lazy_errs_witness :
  GetN TestServicePtr 2 (RegisterFactory TestServicePtr None (boot 0))
  = ([Panic NilFuncCall; Panic NilFuncCall],
     RegisterFactory TestServicePtr None (boot 0)).
Proof.
  apply (nil_factory_panics_nil_lazy_errs TestServicePtr (boot 0) 2). reflexivity.
Defined.

Lemma typed_alloc (T : GoType) :
  is_interface T = false → typed_provider T (Some (alloc T)).
Proof.
  intros HT f [= <-] w. simpl. rewrite HT. simpl. by apply bool_decide_eq_true.
Defined.

Lemma lazy_singleton_once_interleaved_witness :
  runs_of TestServicePtr
    (run [OpGet error_t; OpGet TestServicePtr;
          OpRegisterSingleton error_t e16; OpGet TestServicePtr]
       (RegisterLazySingleton TestServicePtr (Some (alloc TestServicePtr)) (boot 100)))
  = 1%nat.
Proof.
  destruct (lazy_singleton_once_interleaved TestServicePtr (alloc TestServicePtr)
              [OpGet error_t; OpGet TestServicePtr;
               OpRegisterSingleton error_t e16; OpGet TestServicePtr] (boot 100))
    as [H _].
  - reflexivity.
  - apply typed_alloc. reflexivity.
  - reflexivity.
  - repeat constructor; simpl; (reflexivity || (intros He; discriminate He)).
  - exact H.
Defined.

Lemma factory_runs_per_Get_interleaved_witness :
  runs_of TestServicePtr
    (run [OpGet TestServicePtr; OpRegisterSingleton error_t e16;
          OpGet TestServicePtr; OpGet error_t; OpGet TestServicePtr]
       (RegisterFactory TestServicePtr (Some (alloc TestServicePtr)) (boot 100)))
  = 3%nat.
Proof.
  destruct (factory_runs_per_Get_interleaved TestServicePtr (alloc TestServicePtr)
              [OpGet TestServicePtr; OpRegisterSingleton error_t e16;
               OpGet TestServicePtr; OpGet error_t; OpGet TestServicePtr] (boot 100))
    as [H _].
  - reflexivity.
  - reflexivity.
  - repeat constructor; simpl; (reflexivity || (intros He; discriminate He)).
  - exact H.
Defined.

Lemma instance_cast_safe_concrete_witness :
  Get TestServicePtr (run [OpRegisterSingleton TestServicePtr t64] (boot 0))
  = (Ok t64, run [OpRegisterSingleton TestServicePtr t64] (boot 0)).
Proof.
  apply (instance_cast_safe_concrete [OpRegisterSingleton TestServicePtr t64] 0
           TestServicePtr t64).
  - constructor; [reflexivity|constructor].
  - reflexivity.
  - reflexivity.
Defined.

Lemma singleton_stable_concrete_witness :
  Get TestServicePtr
    (run [OpRegisterSingleton error_t e16;
          OpRegisterFactory TestServicePtr (Some (alloc TestServicePtr));
          OpGet error_t]
       (RegisterSingleton TestServicePtr t64 (boot 0))) = (Ok t64,
    run [OpRegisterSingleton error_t e16;
         OpRegisterFactory TestServicePtr (Some (alloc TestServicePtr));
         OpGet error_t]
      (RegisterSingleton TestServicePtr t64 (boot 0))).
Proof.
  apply (singleton_stable_concrete TestServicePtr t64
           [OpRegisterSingleton error_t e16;
            OpRegisterFactory TestServicePtr (Some (alloc TestServicePtr));
            OpGet error_t] (boot 0)).
  - reflexivity.
  - reflexivity.
  - repeat constructor; simpl; try (intros He; discriminate He); intros [].
Defined.

Lemma unregistered_concrete_isolated_witness :
  (Get TestServicePtr
     (run [OpRegisterSingleton error_t e16; OpGet error_t] (boot 0))).1
  = Err "no provider registered for type *locator_test.TestService".
Proof.
  rewrite (unregistered_concrete_isolated TestServicePtr
             [OpRegisterSingleton error_t e16; OpGet error_t] (boot 0)).
  - reflexivity.
  - reflexivity.
  - reflexivity.
  - reflexivity.
  - repeat constructor; simpl; intros He; discriminate He.
Defined.

Lemma materialized_instance_returned_witness :
  GetN TestServicePtr 2
    (RegisterFactory TestServicePtr (Some (alloc TestServicePtr))
       (RegisterSingleton TestServicePtr t64 (boot 0)))
  = ([Ok t64; Ok t64],
     RegisterFactory TestServicePtr (Some (alloc TestServicePtr))
       (RegisterSingleton TestServicePtr t64 (boot 0))).
Proof.
  apply (materialized_instance_returned TestServicePtr t64
           (Some (alloc TestServicePtr))
           (RegisterSingleton TestServicePtr t64 (boot 0)) 2);
    [reflexivity | reflexivity | discriminate].
Defined.

Lemma ChangeX_then_Sum_witness :
  ∃ h', ExampleMain.ChangeX 1 30
          (ExampleMain.NewService1 10 20 (ExampleMain.mkHeap ∅ 1)).2 = Some h' ∧
        ExampleMain.Sum 1 h' = Some 50.
Proof.
  destruct (ChangeX_then_Sum 1 30 10 20
              (ExampleMain.NewService1 10 20 (ExampleMain.mkHeap ∅ 1)).2)
    as (h' & Hc & _ & Hs & _); [reflexivity|].
  exists h'. split; [exact Hc|]. apply Hs. lia.
Defined.

Lemma factory_services_independent_witness :
  ∃ (svc1 svc2 : Z) (h' : ExampleMain.Heap),
    svc1 ≠ svc2 ∧ ExampleMain.Sum svc1 h' = Some 50 ∧ ExampleMain.Sum svc2 h' = Some 30.
Proof.
  destruct (factory_services_independent 10 20 30 (boot (ExampleMain.mkHeap ∅ 1)))
    as (svc1 & svc2 & h' & _ & _ & Hne & _ & H1 & H2); [reflexivity|].
  exists svc1, svc2, h'. split; [exact Hne|]. split; [exact H1 | exact H2].
Defined.

Lemma lazy_service_mutation_visible_witness :
  ∃ (svc : Z) (h' : ExampleMain.Heap), ExampleMain.load_x svc h' = Some 30.
Proof.
  destruct (lazy_service_mutation_visible 10 30 (boot (ExampleMain.mkHeap ∅ 1)))
    as (svc & h' & _ & _ & _ & _ & Hl); [reflexivity|].
  exists svc, h'. exact Hl.
Defined.

(** ** What a retrieval can return *)

Section Results.

Context {W : Type}.
Implicit Types (m : Machine W) (T U : GoType) (v : any).

Lemma typed_store_boot (w : W) : typed_store (boot w).
Proof. split; intros *; simpl; by rewrite lookup_empty. Qed.

Lemma typed_store_exec (o : op W) m :
  typed_op o → typed_registry m → typed_store m → typed_store (exec o m).
Proof.
  intros Ho [_ HL] [HV HF]. destruct o as [T inst|T p|T p|T]; simpl in *.
  - split; simpl; [|done]. intros k v.
    destruct (decide (getTypeKey T = k)) as [<-|Hne].
    + rewrite lookup_insert_eq. intros [= <-]. eauto.
    + rewrite lookup_insert_ne by done. apply HV.
  - split; simpl; [done|]. intros k U q.
    destruct (decide (getTypeKey T = k)) as [<-|Hne].
    + by rewrite lookup_insert_eq.
    + rewrite lookup_insert_ne by done. apply HF.
  - split; simpl; [done|]. intros k U q.
    destruct (decide (getTypeKey T = k)) as [<-|Hne].
    + rewrite lookup_insert_eq. by intros [= <- <-].
    + rewrite lookup_insert_ne by done. apply HF.
  - unfold Get, noProvider, getInstance.
    destruct (instances (sl m) !! getTypeKey T); [by split|].
    destruct (providers (sl m) !! getTypeKey T) as [[T' ls|T' p]|] eqn:Hp;
      [| |by split].
    + destruct (decide (T' = T)) as [->|]; [|by split].
      destruct (provider ls) as [f|] eqn:Hf; [|by split].
      destruct (once ls); [by split|]. split; simpl.
      * intros k v. destruct (decide (getTypeKey T = k)) as [<-|Hne].
        -- rewrite lookup_insert_eq. intros [= <-]. exists T.
           by apply (HL _ _ _ Hp f).
        -- rewrite lookup_insert_ne by done. apply HV.
      * intros k U q. destruct (decide (getTypeKey T = k)) as [<-|Hne].
        -- by rewrite lookup_insert_eq.
        -- rewrite lookup_insert_ne by done. apply HF.
    + destruct (decide (T' = T)); [|by split]. destruct p; by split.
Qed.

Lemma typed_store_run (os : list (op W)) m :
  Forall typed_op os → typed_registry m → typed_store m →
  typed_store (run os m).
Proof.
  intros Hos. revert m. induction Hos as [|o os Ho _ IH]; intros m HR HS; [done|].
  simpl. apply IH; [by apply typed_registry_exec|by apply typed_store_exec].
Qed.

Lemma assertType_Ok_typed inst T v :
  (∃ U, has_type U inst = true) → assertType inst T = Ok v →
  v = inst ∧ has_type T v = true.
Proof.
  intros [U HU]. destruct inst as [|D b]; [done|]. simpl in *.
  apply andb_true_iff in HU as [HD _].
  destruct (is_interface T) eqn:HT.
  - destruct (implements D T) eqn:Hi; [|done]. intros [= <-]. simpl.
    by rewrite HD, HT, Hi.
  - destruct (decide (D = T)) as [->|]; [|done]. intros [= <-]. simpl.
    rewrite HD, HT. simpl. split; [done|]. by apply bool_decide_eq_true.
Qed.

(** Retrieval is type safe: in every state a well-typed program reaches,
    whatever [Get] returns for [T] without error is a value of type [T],
    for interface types as well as for the others. *)
Theorem Get_returns_typed (os : list (op W)) (w : W) T v m' :
  Forall typed_op os →
  Get T (run os (boot w)) = (Ok v, m') →
  has_type T v = true.
Proof.
  intros Hos.
  pose proof (typed_registry_run os (boot w) Hos (typed_registry_boot w)) as HR.
  pose proof (typed_store_run os (boot w) Hos (typed_registry_boot w)
                (typed_store_boot w)) as [HV HF].
  destruct (registry_inv_run os (boot w) (registry_inv_boot w)) as [_ _ _ Hfired].
  destruct HR as [_ HL].
  unfold Get, noProvider, getInstance.
  destruct (instances _ !! getTypeKey T) as [inst|] eqn:Hi.
  { intros [= H _]. by apply assertType_Ok_typed in H as [_ ?]; [|eapply HV]. }
  destruct (providers _ !! getTypeKey T) as [[T' ls|T' p]|] eqn:Hp; [| |done].
  - destruct (decide (T' = T)) as [->|]; [|done].
    destruct (provider ls) as [f|] eqn:Hf; [|done].
    destruct (once ls) eqn:Ho.
    + destruct (Hfired _ _ _ Hp Ho) as [x Hx]. congruence.
    + intros [= <- _]. by apply (HL _ _ _ Hp f).
  - destruct (decide (T' = T)) as [->|]; [|done].
    destruct p as [f|]; [|done]. intros [= <- _]. by apply (HF _ _ _ Hp f).
Qed.

(** For a non-interface type, in every state a program reaches, [Get]
    returns its error only when no instance is stored and either no
    provider is registered or the provider is a lazy singleton whose
    constructor is absent: a registered factory, or a lazy singleton with a
    constructor, is always found by the type switch. *)
Theorem Get_errs_only_when_unregistered (os : list (op W)) (w : W) T msg m' :
  is_interface T = false →
  Get T (run os (boot w)) = (Err msg, m') →
  instances (sl (run os (boot w))) !! getTypeKey T = None ∧
  (providers (sl (run os (boot w))) !! getTypeKey T = None ∨
   ∃ ls, providers (sl (run os (boot w))) !! getTypeKey T = Some (LazyPtr T ls) ∧
         provider ls = None).
Proof.
  intros HT.
  destruct (registry_inv_run os (boot w) (registry_inv_boot w)) as [Hk _ _ _].
  unfold Get, noProvider, getInstance.
  destruct (instances _ !! getTypeKey T) as [inst|] eqn:Hi.
  { intros [= H _]. by apply assertType_not_Err in H. }
  destruct (providers _ !! getTypeKey T) as [rec|] eqn:Hp; [|by intros; split; [|left]].
  pose proof (Hk _ _ Hp) as Htag. rewrite (getTypeKey_concrete T HT) in Htag.
  apply key_eq_concrete in Htag; [|done].
  destruct rec as [T' ls|T' p]; simpl in Htag; subst T'; rewrite decide_True by done.
  - destruct (provider ls) eqn:Hf; [by destruct (once ls)|].
    intros _. split; [done|]. right. eauto.
  - by destruct p.
Qed.

(** Retrievals alone never populate the registry: from the empty registry
    a program made of [Get]s leaves it empty, runs nothing, and each of its
    retrievals fails with the message for the requested type. *)
Theorem gets_on_empty_registry (os : list (op W)) (w : W) :
  Forall (λ o, ¬ is_registration o) os →
  run os (boot w) = boot w ∧
  ∀ T o, (T, o) ∈ outcomes os (boot w) → o = Err (Errorf (zero T)).
Proof.
  intros Hos. induction Hos as [|o os Ho _ [IHr IHo]].
  { split; [done|]. intros T o Hin. by apply elem_of_nil in Hin. }
  destruct o as [U x|U p|U p|U]; simpl in Ho; try (by destruct Ho).
  assert (Get U (boot w) = (Err (Errorf (zero U)), boot w)) as HG.
  { apply Get_no_entry; simpl; apply lookup_empty. }
  simpl. rewrite HG. simpl. split; [done|].
  intros T o Hin. apply elem_of_cons in Hin as [[= -> ->]|Hin]; [done|by apply IHo].
Qed.

End Results.

Lemma Get_returns_typed_witness :
  has_type error_t e16 = true.
Proof.
  apply (Get_returns_typed [OpRegisterSingleton error_t e16] 0 error_t e16
           (run [OpRegisterSingleton error_t e16] (boot 0))).
  - constructor; [reflexivity|constructor].
  - reflexivity.
Defined.

Lemma Get_errs_only_when_unregistered_witness :
  instances (sl (run [OpRegisterLazySingleton TestServicePtr None] (boot 0)))
    !! getTypeKey TestServicePtr = None.
Proof.
  apply (Get_errs_only_when_unregistered [OpRegisterLazySingleton TestServicePtr None] 0
           TestServicePtr "no provider registered for type *locator_test.TestService"
           (run [OpRegisterLazySingleton TestServicePtr None] (boot 0)));
    reflexivity.
Defined.

Lemma gets_on_empty_registry_witness :
  run [OpGet TestServicePtr; OpGet error_t] (boot 0) = boot 0.
Proof.
  apply (gets_on_empty_registry [OpGet TestServicePtr; OpGet error_t] 0).
  repeat constructor; simpl; intros [].
Defined.

(** ** The registry after a retrieval *)

Section Settling.

Context {W : Type}.
Implicit Types (m : Machine W) (T U : GoType) (v : any).

(** Either [Get] leaves the registry as it is, and would do so from any
    machine holding the same registry; or it has stored an instance under
    the key of the requested type. *)
Lemma Get_sl_cases T m :
  (∀ m2, sl m2 = sl m → sl (Get T m2).2 = sl m2) ∨
  is_Some (instances (sl (Get T m).2) !! getTypeKey T).
Proof.
  destruct (instances (sl m) !! getTypeKey T) as [inst|] eqn:Hi.
  { right. rewrite (Get_instance_path T m inst Hi). simpl. by rewrite Hi. }
  destruct (providers (sl m) !! getTypeKey T) as [[T' ls|T' p]|] eqn:Hp.
  - destruct (decide (T' = T)) as [->|Hne].
    + destruct (provider ls) as [f|] eqn:Hf.
      * destruct (once ls) eqn:Ho.
        -- left. intros m2 H2. unfold Get, getInstance.
           rewrite H2, Hi, Hp. rewrite decide_True by done. by rewrite Hf, Ho.
        -- right. unfold Get, getInstance.
           rewrite Hi, Hp. rewrite decide_True by done. rewrite Hf, Ho.
           simpl. by rewrite lookup_insert_eq.
      * left. intros m2 H2. unfold Get, getInstance.
        rewrite H2, Hi, Hp. rewrite decide_True by done. by rewrite Hf.
    + left. intros m2 H2. unfold Get. rewrite H2, Hi, Hp. by rewrite decide_False.
  - destruct (decide (T' = T)) as [->|Hne].
    + left. intros m2 H2. unfold Get. rewrite H2, Hi, Hp.
      rewrite decide_True by done. by destruct p.
    + left. intros m2 H2. unfold Get. rewrite H2, Hi, Hp. by rewrite decide_False.
  - left. intros m2 H2. unfold Get. by rewrite H2, Hi, Hp.
Qed.

(** One retrieval settles the registry for its type: after a [Get] for
    [T], whatever it returned, no number of further [Get]s for [T] changes
    [instances] or [providers]. *)
Theorem Get_registry_settles T m n :
  sl (GetN T n (Get T m).2).2 = sl (Get T m).2.
Proof.
  destruct (Get_sl_cases T m) as [Hsame|[v Hv]].
  - assert (∀ k m2, sl m2 = sl m → sl (GetN T k m2).2 = sl m2) as Hn.
    { induction k as [|k IH]; intros m2 H2; [done|].
      simpl. rewrite IH; [by apply Hsame|].
      rewrite Hsame by done. done. }
    pose proof (Hsame m eq_refl) as H1. rewrite Hn; done.
  - by rewrite (GetN_fixed T _ (assertType v T) n)
      by (by apply Get_instance_path).
Qed.

End Settling.
